(** * mymkfs: the HUST_fs formatter, embedded in Rocq

    A shallow embedding of [src/mymkfs.c].  The C program keeps its
    geometry in file-level statics, fills two bitmaps, and then issues a
    fixed sequence of [write]/[lseek] calls on the opened device.

    - 64-bit unsigned arithmetic is [Z] with the wrap-around written out
      ([u64]); the loop counter of [init_disk] is a C [int].
    - the statics are a record [globals]; the device is seen through the
      system calls made on it, collected in a [trace];
    - what the operating system answers ([stat], [write], [lseek], [time],
      [getuid], ...) is an environment [env];
    - a C execution with undefined behaviour (a store past the end of a
      heap buffer, signed overflow) is the outcome [Undef]. *)

From Stdlib Require Import ZArith Lia String.
From stdpp Require Import base list.

Local Open Scope Z_scope.

(** ** Constants of [constants.h] *)

(** Modelled from the spec: [constants.h] is not part of the sources at
    hand.  Its macros are the fields of this record; the functions below
    take them as a parameter. *)
Record constants := {
  HUST_BLOCKSIZE : Z;
  RESERVE_BLOCKS : Z;
  MAGIC_NUM : Z;
  HUST_N_BLOCKS : Z;
  HUST_FILENAME_MAX_LEN : Z;
  HUST_ROOT_INODE_NUM : Z
}.

(** Modelled from the spec: the values of the missing [constants.h], as the
    layout comment at the head of [mymkfs.c] and the spec give them: blocks
    of 4096 bytes, two reserved leading blocks (dummy block and superblock),
    an inode record of 264 bytes (ten direct block pointers).  The magic
    number, the file-name length and the root inode number are not stated
    anywhere; the values here only serve to run the program on examples. *)
Definition hust : constants := {|
  HUST_BLOCKSIZE := 4096;
  RESERVE_BLOCKS := 2;
  MAGIC_NUM := 0x13131313;
  HUST_N_BLOCKS := 10;
  HUST_FILENAME_MAX_LEN := 256;
  HUST_ROOT_INODE_NUM := 0
|}.

(** [<linux/stat.h>]: octal 0040000 and 0100000. *)
Definition S_IFDIR : Z := 0x4000.
Definition S_IFREG : Z := 0x8000.

(** ** Machine integers *)

Definition u64 (x : Z) : Z := x mod 2 ^ 64.
Definition u8 (x : Z) : Z := x mod 2 ^ 8.
Definition INT_MAX : Z := 2 ^ 31 - 1.

(** Conversion to a signed type of [w] bits (two's complement). *)
Definition to_signed (w x : Z) : Z :=
  let r := x mod 2 ^ w in
  if r <? 2 ^ (w - 1) then r else r - 2 ^ w.
Definition i32 : Z -> Z := to_signed 32.
Definition i64 : Z -> Z := to_signed 64.

(** ** Data model *)

Record HUST_fs_super_block := {
  version : Z;
  magic : Z;
  block_size : Z;
  inodes_count : Z;
  free_blocks : Z;
  blocks_count : Z;
  bmap_block : Z;
  imap_block : Z;
  inode_table_block : Z;
  data_block_number : Z
}.

(** [sizeof(struct HUST_fs_super_block)]: ten 64-bit fields and
    [char padding[4016]]. *)
Definition sizeof_super_block : Z := 10 * 8 + 4016.

(** An inode as [write_itable] builds it on its stack.  Only [block[0]] of
    the pointer array is assigned: the other entries (and the padding) keep
    whatever the stack held, shown as [None].  [file_size] is the anonymous
    union of [file_size] and [dir_children_count]. *)
Record HUST_inode := {
  mode : Z;
  inode_no : Z;
  blocks : Z;
  block : list (option Z);
  file_size : Z;
  i_uid : Z;
  i_gid : Z;
  i_nlink : Z;
  i_atime : Z;
  i_mtime : Z;
  i_ctime : Z
}.

Definition dir_children_count : HUST_inode -> Z := file_size.

(** [sizeof(struct HUST_inode)] on LP64: [mode] (4, padded to 8), two
    64-bit fields, the pointer array, the union, three 32-bit fields
    (padded to 16), three 64-bit times and [char padding[112]].  With ten
    pointers this is the 264 of the source comment. *)
Definition HUST_INODE_SIZE (K : constants) : Z :=
  8 + 8 + 8 + 8 * HUST_N_BLOCKS K + 8 + 16 + 3 * 8 + 112.

(** A directory record: the bytes [memcpy] puts in [filename] (the name and
    its terminating NUL, the rest of the array is not assigned) and the
    inode number. *)
Record HUST_dir_record := {
  filename : string;
  dir_inode_no : Z
}.

(** [sizeof(struct HUST_dir_record)]: the name array rounded up to the
    alignment of the 64-bit field after it, and that field. *)
Definition sizeof_dir_record (K : constants) : Z :=
  (HUST_FILENAME_MAX_LEN K + 7) / 8 * 8 + 8.

(** The file-level statics of [mymkfs.c].  A [None] buffer is the null
    pointer. *)
Record globals := {
  bmap : option (list Z);
  imap : option (list Z);
  disk_size : Z;
  bmap_size : Z;
  imap_size : Z;
  inode_table_size : Z;
  super_block : HUST_fs_super_block
}.

Definition zero_super_block : HUST_fs_super_block :=
  Build_HUST_fs_super_block 0 0 0 0 0 0 0 0 0 0.

(** Statics start out zeroed. *)
Definition initial_globals : globals :=
  Build_globals None None 0 0 0 0 zero_super_block.

(** ** The device, as the system calls made on it *)

(** What a [write] call is handed. *)
Inductive payload :=
| PZeros (n : Z)
| PSuper (sb : HUST_fs_super_block)
| PBuffer (buf : option (list Z))
| PInode (i : HUST_inode)
| PDirRecord (d : HUST_dir_record).

(** [EWrite off p count r]: [write(fd, p, count)] issued with the file
    offset at [off], answered [r].  [ESeek off r]: [lseek(fd, off,
    SEEK_SET)], answered [r].  [ESeekCur off r]: [lseek(fd, 0L, SEEK_CUR)]
    issued with the file offset at [off], answered [r]. *)
Inductive event :=
| EWrite (off : Z) (p : payload) (count : Z) (r : Z)
| ESeek (off : Z) (r : Z)
| ESeekCur (off : Z) (r : Z).

Record world := {
  offset : Z;
  trace : list event;
  nwrites : nat;
  ntimes : nat
}.

Definition initial_world : world := Build_world 0 [] 0%nat 0%nat.

(** The answers of the operating system: the size [stat] reports ([None]
    when [stat] fails), what the [k]-th [write] of [count] bytes returns,
    what [lseek] to an offset returns, what [lseek(fd, 0L, SEEK_CUR)]
    returns when the file offset is the one given, the descriptor [open]
    returns, the caller's ids and what the [k]-th call of [time] returns. *)
Record env := {
  stat_size : option Z;
  write_ret : nat -> Z -> Z;
  lseek_ret : Z -> Z;
  lseek_cur_ret : Z -> Z;
  open_ret : Z;
  getuid : Z;
  getgid : Z;
  time : nat -> Z
}.

Record machine := {
  statics : globals;
  dev : world
}.

Definition initial_machine : machine := Build_machine initial_globals initial_world.

(** ** Outcomes and the state monad of the program *)

Inductive result (A : Type) :=
| Done (a : A)
| Undef.
Arguments Done {A} a.
Arguments Undef {A}.

Definition M (A : Type) : Type := machine -> result (A * machine).

Definition ret {A} (a : A) : M A := fun m => Done (a, m).
Definition undef {A} : M A := fun _ => Undef.
Definition bind {A B} (c : M A) (k : A -> M B) : M B :=
  fun m => match c m with
           | Done (a, m') => k a m'
           | Undef => Undef
           end.
Definition get_globals : M globals := fun m => Done (statics m, m).
Definition put_globals (x : globals) : M unit :=
  fun m => Done (tt, Build_machine x (dev m)).

Notation "x <- c ;; k" := (bind c (fun x => k))
  (at level 100, c at next level, right associativity).
Notation "c ;;; k" := (bind c (fun _ => k))
  (at level 100, right associativity).

(** Field updates of the statics. *)
Definition with_bmap (b : option (list Z)) (x : globals) : globals :=
  Build_globals b (imap x) (disk_size x) (bmap_size x) (imap_size x)
    (inode_table_size x) (super_block x).
Definition with_imap (b : option (list Z)) (x : globals) : globals :=
  Build_globals (bmap x) b (disk_size x) (bmap_size x) (imap_size x)
    (inode_table_size x) (super_block x).
Definition with_disk_size (s : Z) (x : globals) : globals :=
  Build_globals (bmap x) (imap x) s (bmap_size x) (imap_size x)
    (inode_table_size x) (super_block x).

(** [malloc] followed by [memset(.., 0, ..)]: a fresh zeroed buffer.
    Allocation is taken to succeed. *)
Definition malloc_zeroed (n : Z) : option (list Z) :=
  Some (replicate (Z.to_nat n) 0).

(** ** The program *)

Section Program.

Variable K : constants.
Variable E : env.

(** *** System calls *)

(** [write(fd, p, count)]: the environment decides the return value; a
    non-negative one advances the file offset. *)
Definition sys_write (p : payload) (count : Z) : M Z := fun m =>
  let d := dev m in
  let r := write_ret E (nwrites d) count in
  Done (r, Build_machine (statics m)
             {| offset := if 0 <=? r then offset d + r else offset d;
                trace := trace d ++ [EWrite (offset d) p count r];
                nwrites := S (nwrites d);
                ntimes := ntimes d |}).

(** [lseek(fd, off, SEEK_SET)]. *)
Definition sys_lseek (off : Z) : M Z := fun m =>
  let d := dev m in
  let r := lseek_ret E off in
  Done (r, Build_machine (statics m)
             {| offset := if r =? -1 then offset d else off;
                trace := trace d ++ [ESeek off r];
                nwrites := nwrites d;
                ntimes := ntimes d |}).

(** [lseek(fd, 0L, SEEK_CUR)]: the file offset stays where it is, whatever
    the call returns. *)
Definition sys_lseek_cur : M Z := fun m =>
  let d := dev m in
  let r := lseek_cur_ret E (offset d) in
  Done (r, Build_machine (statics m)
             {| offset := offset d;
                trace := trace d ++ [ESeekCur (offset d) r];
                nwrites := nwrites d;
                ntimes := ntimes d |}).

(** [time(NULL)]. *)
Definition sys_time : M Z := fun m =>
  let d := dev m in
  Done (time E (ntimes d),
        Build_machine (statics m)
          {| offset := offset d; trace := trace d;
             nwrites := nwrites d; ntimes := S (ntimes d) |}).

(** *** [get_file_size] *)
Definition get_file_size : Z :=
  match stat_size E with
  | None => -1
  | Some s => s
  end.

(** *** [set_bmap]

    The guard compares the byte index with the byte length of the buffer
    using [>].  A store at an index the buffer does not have is undefined
    behaviour. *)
Definition set_bmap (idx : Z) (value : Z) : M Z := fun m =>
  match bmap (statics m) with
  | None => Done (-1, m)
  | Some buf =>
      let array_idx := idx / 8 in
      let off := idx mod 8 in
      if u64 (bmap_size (statics m) * HUST_BLOCKSIZE K) <? array_idx
      then Done (-1, m)
      else
        match buf !! Z.to_nat array_idx with
        | None => Undef
        | Some b =>
            let b' := if value =? 0
                      then u8 (Z.land b (Z.lnot (Z.shiftl 1 off)))
                      else u8 (Z.lor b (Z.shiftl 1 off)) in
            Done (0, Build_machine
                       (with_bmap (Some (<[Z.to_nat array_idx := b']> buf)) (statics m))
                       (dev m))
        end
  end.

(** *** [set_imap]: [imap[0] |= 0x3] *)
Definition set_imap : M unit := fun m =>
  match imap (statics m) with
  | None => Undef
  | Some buf =>
      match buf !! 0%nat with
      | None => Undef
      | Some b =>
          Done (tt, Build_machine
                      (with_imap (Some (<[0%nat := u8 (Z.lor b 3)]> buf)) (statics m))
                      (dev m))
      end
  end.

(** *** [init_disk]

    Lines 136-191: every static is assigned from the device size. *)
Definition init_disk_geometry (dsz : Z) : globals :=
  let blocks_count := dsz / HUST_BLOCKSIZE K in
  let inodes_count := blocks_count in
  let bmap_size := blocks_count / (8 * HUST_BLOCKSIZE K) in
  let bmap_block := RESERVE_BLOCKS K in
  let bmap_size :=
    if blocks_count mod (8 * HUST_BLOCKSIZE K) =? 0
    then bmap_size else u64 (bmap_size + 1) in
  let bmap := malloc_zeroed (u64 (bmap_size * HUST_BLOCKSIZE K)) in
  let imap_size := inodes_count / (8 * HUST_BLOCKSIZE K) in
  let imap_block := u64 (bmap_block + bmap_size) in
  let imap_size :=
    if inodes_count mod (8 * HUST_BLOCKSIZE K) =? 0
    then imap_size else u64 (imap_size + 1) in
  let imap := malloc_zeroed (u64 (imap_size * HUST_BLOCKSIZE K)) in
  let inode_table_size := inodes_count / (HUST_BLOCKSIZE K / HUST_INODE_SIZE K) in
  let inode_table_block := u64 (imap_block + imap_size) in
  let data_block_number :=
    u64 (RESERVE_BLOCKS K + bmap_size + imap_size + inode_table_size) in
  let free_blocks := u64 (blocks_count - data_block_number - 1) in
  {| bmap := bmap;
     imap := imap;
     disk_size := dsz;
     bmap_size := bmap_size;
     imap_size := imap_size;
     inode_table_size := inode_table_size;
     super_block :=
       {| version := 1;
          magic := MAGIC_NUM K;
          block_size := HUST_BLOCKSIZE K;
          inodes_count := inodes_count;
          free_blocks := free_blocks;
          blocks_count := blocks_count;
          bmap_block := bmap_block;
          imap_block := imap_block;
          inode_table_block := inode_table_block;
          data_block_number := data_block_number |} |}.

(** Lines 194-200: [for (idx = 0; idx < data_block_number + 1; ++idx)],
    as a recursion on the number [n] of iterations left.  The counter is
    an [int]: incrementing it at [INT_MAX] is undefined behaviour. *)
Fixpoint mark_used (n : nat) (idx : Z) : M Z :=
  match n with
  | O => ret 0
  | S n' =>
      r <- set_bmap idx 1 ;;
      if r =? 0
      then if idx =? INT_MAX then undef else mark_used n' (idx + 1)
      else ret (-1)
  end.

Definition init_disk : M Z :=
  gl <- get_globals ;;
  let dsz := u64 get_file_size in
  put_globals (with_disk_size dsz gl) ;;;
  if dsz =? u64 (-1) then ret (-1)
  else
    let gl := init_disk_geometry dsz in
    put_globals gl ;;;
    r <- mark_used (Z.to_nat (u64 (data_block_number (super_block gl) + 1))) 0 ;;
    if r =? 0 then set_imap ;;; ret 0 else ret (-1).

(** *** The writers *)

Definition write_dummy : M Z :=
  res <- sys_write (PZeros (HUST_BLOCKSIZE K)) (HUST_BLOCKSIZE K) ;;
  if res =? HUST_BLOCKSIZE K then ret 0 else ret (-1).

Definition write_sb : M Z :=
  gl <- get_globals ;;
  r <- sys_write (PSuper (super_block gl)) sizeof_super_block ;;
  if r =? HUST_BLOCKSIZE K then ret 0 else ret (-1).

Definition write_bmap : M Z :=
  gl <- get_globals ;;
  r <- sys_write (PBuffer (bmap gl)) (u64 (bmap_size gl * HUST_BLOCKSIZE K)) ;;
  if u64 r =? u64 (bmap_size gl * HUST_BLOCKSIZE K) then ret 0 else ret (-1).

Definition write_imap : M Z :=
  gl <- get_globals ;;
  res <- sys_write (PBuffer (imap gl)) (u64 (imap_size gl * HUST_BLOCKSIZE K)) ;;
  if u64 res =? u64 (imap_size gl * HUST_BLOCKSIZE K) then ret 0 else ret (-1).

(** [memcpy(rec.filename, name, strlen(name) + 1)]: it must fit the
    array. *)
Definition memcpy_name (name : string) : M string :=
  if Z.of_nat (String.length name) + 1 <=? HUST_FILENAME_MAX_LEN K
  then ret name else undef.

(** The two inodes [write_itable] fills in on its stack: lines 273-282 with
    [t] the value of [time(NULL)] on line 282, and lines 294-303 with [t]
    the one of line 303.  [_uid] and [_gid] are the [uint32_t] locals. *)
Definition root_dir_inode (dbn t : Z) : HUST_inode :=
  let _uid := getuid E mod 2 ^ 32 in
  let _gid := getgid E mod 2 ^ 32 in
  {| mode := S_IFDIR;
     inode_no := HUST_ROOT_INODE_NUM K;
     blocks := 1;
     block := Some dbn :: replicate (Z.to_nat (HUST_N_BLOCKS K) - 1) None;
     file_size := 3;
     i_uid := i32 _uid;
     i_gid := i32 _gid;
     i_nlink := 2;
     i_atime := i64 t; i_mtime := i64 t; i_ctime := i64 t |}.

Definition onefile_inode (t : Z) : HUST_inode :=
  let _uid := getuid E mod 2 ^ 32 in
  let _gid := getgid E mod 2 ^ 32 in
  {| mode := S_IFREG;
     inode_no := 1;
     blocks := 0;
     block := Some 0 :: replicate (Z.to_nat (HUST_N_BLOCKS K) - 1) None;
     file_size := 0;
     i_uid := i32 _uid;
     i_gid := i32 _gid;
     i_nlink := 1;
     i_atime := i64 t; i_mtime := i64 t; i_ctime := i64 t |}.

(** The return value of the first two directory-record writes is
    overwritten; only the third is looked at.  What the
    [lseek(fd, 0L, SEEK_CUR)] of line 326 returns goes to a message only.
    The [printf] and [perror] calls are left out, here as everywhere. *)
Definition write_itable : M Z :=
  gl <- get_globals ;;
  t <- sys_time ;;
  r <- sys_write (PInode (root_dir_inode (data_block_number (super_block gl)) t))
         (HUST_INODE_SIZE K) ;;
  if negb (u64 r =? HUST_INODE_SIZE K) then ret (-1)
  else
    t <- sys_time ;;
    r <- sys_write (PInode (onefile_inode t)) (HUST_INODE_SIZE K) ;;
    if negb (u64 r =? HUST_INODE_SIZE K) then ret (-1)
    else
      cur_dir <- memcpy_name "." ;;
      let root_dir_c :=
        {| filename := cur_dir; dir_inode_no := HUST_ROOT_INODE_NUM K |} in
      parent_dir <- memcpy_name ".." ;;
      let root_dir_p :=
        {| filename := parent_dir; dir_inode_no := HUST_ROOT_INODE_NUM K |} in
      onefile <- memcpy_name "file" ;;
      let file_record := {| filename := onefile; dir_inode_no := 1 |} in
      _current_off <- sys_lseek_cur ;;
      s <- sys_lseek (i64 (u64 (data_block_number (super_block gl)
                                * HUST_BLOCKSIZE K))) ;;
      if s =? -1 then ret (-1)
      else
        _r1 <- sys_write (PDirRecord root_dir_c) (sizeof_dir_record K) ;;
        _r2 <- sys_write (PDirRecord root_dir_p) (sizeof_dir_record K) ;;
        r <- sys_write (PDirRecord file_record) (sizeof_dir_record K) ;;
        if negb (u64 r =? sizeof_dir_record K) then ret (-1) else ret 0.

(** *** [main]

    The value a stage returns is dropped and the next stage is called;
    [ret] is set to 1 before the first stage and returned after [close]. *)
Definition main (argc : Z) : M Z :=
  if negb (argc =? 2) then ret (-1)
  else
    let fd := open_ret E in
    if fd =? -1 then ret (-1)
    else
      let ret_ := 1 in
      init_disk ;;;
      write_dummy ;;;
      write_sb ;;;
      write_bmap ;;;
      write_imap ;;;
      write_itable ;;;
      ret ret_.

End Program.

(** ** Observations used in the statements *)

(** Bit [i] of a bitmap: bit [i mod 8] of byte [i / 8]. *)
Definition get_bit (buf : list Z) (i : Z) : bool :=
  match buf !! Z.to_nat (i / 8) with
  | Some b => Z.testbit b (i mod 8)
  | None => false
  end.

(** How many of the indices [0 .. n-1] satisfy [f]. *)
Fixpoint count_below (f : Z -> bool) (n : nat) : Z :=
  match n with
  | O => 0
  | S k => count_below f k + (if f (Z.of_nat k) then 1 else 0)
  end.

(** The number of bits set in a bitmap. *)
Definition count_set_bits (buf : list Z) : Z :=
  count_below (get_bit buf) (8 * length buf).

Definition ceil_div (a b : Z) : Z := (a + b - 1) / b.

(** What the code takes for granted about the macros: the block size is a
    positive [int] and [8 * HUST_BLOCKSIZE] is still an [int], an inode fits
    in a block (so that [HUST_BLOCKSIZE / HUST_INODE_SIZE] is not zero), an
    inode has a [block[0]], the number of reserved blocks is a non-negative
    [int], and the three names fit the [filename] array, itself of an [int]
    length. *)
Definition good_constants (K : constants) : Prop :=
  0 < HUST_BLOCKSIZE K /\ 8 * HUST_BLOCKSIZE K <= INT_MAX /\
  1 <= HUST_N_BLOCKS K /\ HUST_INODE_SIZE K <= HUST_BLOCKSIZE K /\
  0 <= RESERVE_BLOCKS K <= INT_MAX /\
  5 <= HUST_FILENAME_MAX_LEN K <= INT_MAX.

(** A file size as [stat] can report it ([off_t]). *)
Definition off_t_size (S : Z) : Prop := 0 <= S < 2 ^ 63.

(** An environment in which no [write] is short and no [lseek] to an
    offset that is not negative fails.  What [lseek(fd, 0L, SEEK_CUR)]
    returns is left open: the program only prints it. *)
Definition io_succeeds (E : env) : Prop :=
  (forall k n, write_ret E k n = n) /\
  (forall o, 0 <= o -> lseek_ret E o <> -1).

(** An environment in which nothing fails on a device of [S] bytes: [open]
    and [stat] succeed as well. *)
Definition all_succeed (E : env) (S : Z) : Prop :=
  stat_size E = Some S /\ io_succeeds E /\ open_ret E <> -1.

(** The environment of a run on an image of [S] bytes where nothing
    fails; the caller is uid 1000, gid 100 and the clock advances by one
    second per call. *)
Definition quiet_env (S : Z) : env :=
  {| stat_size := Some S;
     write_ret := fun _ n => n;
     lseek_ret := fun o => if o <? 0 then -1 else o;
     lseek_cur_ret := fun o => o;
     open_ret := 3;
     getuid := 1000;
     getgid := 100;
     time := fun k => 1700000000 + Z.of_nat k |}.

(** The same, but the first [write] (the dummy block) fails with [-1]. *)
Definition first_write_fails (S : Z) : env :=
  {| stat_size := Some S;
     write_ret := fun k n => match k with O => -1 | _ => n end;
     lseek_ret := fun o => if o <? 0 then -1 else o;
     lseek_cur_ret := fun o => o;
     open_ret := 3;
     getuid := 1000;
     getgid := 100;
     time := fun k => 1700000000 + Z.of_nat k |}.

(** The statics right after lines 136-191 on an image of 409,600 bytes,
    with the constants of the header. *)
Definition geometry_400K : globals := init_disk_geometry hust 409600.

(** An environment in which [stat] fails and nothing else does. *)
Definition stat_fails : env :=
  {| stat_size := None;
     write_ret := fun _ n => n;
     lseek_ret := fun o => if o <? 0 then -1 else o;
     lseek_cur_ret := fun o => o;
     open_ret := 3;
     getuid := 1000;
     getgid := 100;
     time := fun k => 1700000000 + Z.of_nat k |}.

(** The offsets and the payloads of the [write] calls of a trace. *)
Definition writes_of (t : list event) : list (Z * payload) :=
  omap (fun e => match e with
                 | EWrite off p _ _ => Some (off, p)
                 | ESeek _ _ => None
                 | ESeekCur _ _ => None
                 end) t.

(** The inode records handed to [write] in a trace. *)
Definition inodes_written (t : list event) : list HUST_inode :=
  omap (fun e => match e with
                 | EWrite _ (PInode i) _ _ => Some i
                 | _ => None
                 end) t.

(** The directory records handed to [write] in a trace, with the offset
    each was written at. *)
Definition dir_records_written (t : list event) : list (Z * HUST_dir_record) :=
  omap (fun e => match e with
                 | EWrite off (PDirRecord r) _ _ => Some (off, r)
                 | _ => None
                 end) t.

(** The byte range [[off, off + r)] a [write] stored, when it stored
    anything. *)
Definition bytes_stored (e : event) : option (Z * Z) :=
  match e with
  | EWrite off _ _ r => if 0 <? r then Some (off, off + r) else None
  | ESeek _ _ => None
  | ESeekCur _ _ => None
  end.

(** Two states of the statics with the same geometry: they differ at most
    in the contents of the two bitmap buffers. *)
Definition same_layout (x y : globals) : Prop :=
  super_block x = super_block y /\ bmap_size x = bmap_size y /\
  imap_size x = imap_size y /\ inode_table_size x = inode_table_size y /\
  disk_size x = disk_size y.

(** The six stages of [main] in the order [main] calls them, keeping the
    values [main] drops. *)
Definition stage_codes (K : constants) (E : env) : M (list Z) :=
  c1 <- init_disk K E ;;
  c2 <- write_dummy K E ;;
  c3 <- write_sb K E ;;
  c4 <- write_bmap K E ;;
  c5 <- write_imap K E ;;
  c6 <- write_itable K E ;;
  ret [c1; c2; c3; c4; c5; c6].

(** Where the file offset is after a [write] that returned [r]. *)
Definition advance (o r : Z) : Z := if 0 <=? r then o + r else o.

(** The device after [write(fd, p, count)], whatever it returned. *)
Definition after_write (E : env) (p : payload) (count : Z) (d : world) : world :=
  let r := write_ret E (nwrites d) count in
  {| offset := advance (offset d) r;
     trace := trace d ++ [EWrite (offset d) p count r];
     nwrites := Datatypes.S (nwrites d);
     ntimes := ntimes d |}.


(** An environment in which the [k]-th [write] stores only [r] bytes and
    every other one is complete, on an image of [S] bytes. *)
Definition short_write (S : Z) (k : nat) (r : Z) : env :=
  {| stat_size := Some S;
     write_ret := fun j n => if Nat.eqb j k then r else n;
     lseek_ret := fun o => if o <? 0 then -1 else o;
     lseek_cur_ret := fun o => o;
     open_ret := 3;
     getuid := 1000;
     getgid := 100;
     time := fun j => 1700000000 + Z.of_nat j |}.

(** The machine [init_disk] leaves on an image of [S] bytes with the
    constants of the header, started from the initial one.  *)
Definition machine_after_init (S : Z) : machine :=
  match init_disk hust (quiet_env S) initial_machine with
  | Done (_, m') => m'
  | Undef => initial_machine
  end.

(** The values of an [ssize_t], the type of what [write] returns. *)
Definition ssize_t (r : Z) : Prop := - 2 ^ 63 <= r < 2 ^ 63.

(** [W], run on [m], makes one system call, a [write] of [count] bytes of
    [p] at the current offset, leaves the statics alone, and returns 0 when
    that [write] returned [expected] and -1 otherwise. *)
Definition writes_once (E : env) (W : M Z) (m : machine)
    (p : payload) (count expected : Z) : Prop :=
  let r := write_ret E (nwrites (dev m)) count in
  exists c m',
    W m = Done (c, m') /\
    statics m' = statics m /\
    trace (dev m') = trace (dev m) ++ [EWrite (offset (dev m)) p count r] /\
    offset (dev m') = advance (offset (dev m)) r /\
    (c = 0 <-> r = expected) /\ (c = 0 \/ c = -1).

(** * Properties *)

(** ** Machine arithmetic *)

Lemma u64_small x : 0 <= x < 2 ^ 64 -> u64 x = x.
Proof. intros H. unfold u64. apply Z.mod_small. exact H. Qed.

Lemma u64_minus_one : u64 (-1) = 2 ^ 64 - 1.
Proof. reflexivity. Qed.

Lemma i64_small x : 0 <= x < 2 ^ 63 -> i64 (u64 x) = x.
Proof.
  intros H. rewrite u64_small by lia. unfold i64, to_signed.
  rewrite Z.mod_small by lia.
  change (2 ^ (64 - 1)) with (2 ^ 63).
  destruct (Z.ltb_spec x (2 ^ 63)); lia.
Qed.

Lemma ceil_div_spec a b :
  0 < b -> 0 <= a -> b * (ceil_div a b - 1) < a <= b * ceil_div a b.
Proof.
  intros Hb Ha. unfold ceil_div.
  pose proof (Z.div_mod (a + b - 1) b ltac:(lia)) as Hd.
  pose proof (Z.mod_pos_bound (a + b - 1) b Hb) as Hm.
  lia.
Qed.

(** The two-step computation of the code (divide, then add one when the
    remainder is not zero) is the ceiling of the quotient. *)
Lemma div_round_up a b :
  0 < b -> 0 <= a ->
  (if a mod b =? 0 then a / b else a / b + 1) = ceil_div a b.
Proof.
  intros Hb Ha. unfold ceil_div.
  pose proof (Z.div_mod a b ltac:(lia)) as Hd.
  pose proof (Z.mod_pos_bound a b Hb) as Hm.
  destruct (Z.eqb_spec (a mod b) 0) as [H0 | H0].
  - apply Z.div_unique with (r := b - 1); lia.
  - apply Z.div_unique with (r := a mod b - 1); lia.
Qed.

Lemma ceil_div_pos a b : 0 < b -> 1 <= a -> 1 <= ceil_div a b.
Proof.
  intros Hb Ha. pose proof (ceil_div_spec a b Hb ltac:(lia)). nia.
Qed.

Lemma ceil_div_zero b : 0 < b -> ceil_div 0 b = 0.
Proof. intros Hb. unfold ceil_div. apply Z.div_small. lia. Qed.

Lemma ceil_div_le a b : 0 < b -> 0 <= a -> 0 <= ceil_div a b <= a / b + 1.
Proof.
  intros Hb Ha. rewrite <- (div_round_up a b Hb Ha).
  pose proof (Z.div_pos a b Ha Hb).
  destruct (a mod b =? 0); lia.
Qed.

Lemma to_signed_mod w x : 0 < w -> to_signed w x mod 2 ^ w = x mod 2 ^ w.
Proof.
  intros Hw. unfold to_signed.
  assert (0 < 2 ^ w) by (apply Z.pow_pos_nonneg; lia).
  destruct (x mod 2 ^ w <? 2 ^ (w - 1)).
  - apply Z.mod_mod. lia.
  - replace (x mod 2 ^ w - 2 ^ w) with (x mod 2 ^ w + (-1) * 2 ^ w) by lia.
    rewrite Z.mod_add by lia. apply Z.mod_mod. lia.
Qed.

Lemma to_signed_id w x :
  0 < w -> - 2 ^ (w - 1) <= x < 2 ^ (w - 1) -> to_signed w x = x.
Proof.
  intros Hw Hx. unfold to_signed.
  assert (Hp : 2 ^ w = 2 * 2 ^ (w - 1)).
  { replace w with (Z.succ (w - 1)) at 1 by lia. apply Z.pow_succ_r. lia. }
  destruct (Z.neg_nonneg_cases x) as [Hneg | Hpos].
  - assert (Hm : x mod 2 ^ w = x + 2 ^ w).
    { symmetry. apply Z.mod_unique with (q := -1); lia. }
    rewrite Hm. destruct (Z.ltb_spec (x + 2 ^ w) (2 ^ (w - 1))); lia.
  - rewrite Z.mod_small by lia.
    destruct (Z.ltb_spec x (2 ^ (w - 1))); lia.
Qed.

(** ** The geometry of [init_disk] *)

Section Geometry.

Variable K : constants.
Hypothesis HK : good_constants K.
Variable S : Z.
Hypothesis HS : off_t_size S.

Local Abbreviation B := (HUST_BLOCKSIZE K).
Local Abbreviation bc := (S / HUST_BLOCKSIZE K).
Local Abbreviation nmap := (ceil_div (S / HUST_BLOCKSIZE K) (8 * HUST_BLOCKSIZE K)).
Local Abbreviation ntable :=
  (S / HUST_BLOCKSIZE K / (HUST_BLOCKSIZE K / HUST_INODE_SIZE K)).

Lemma block_size_bounds : 192 <= B /\ 1 <= B / HUST_INODE_SIZE K.
Proof using HK.
  destruct HK as (HB & HB8 & HN & HI & _).
  unfold HUST_INODE_SIZE in *. split; [lia |].
  apply Z.div_le_lower_bound; lia.
Qed.

Lemma blocks_count_bounds : 0 <= bc < 2 ^ 56.
Proof using HK HS.
  pose proof block_size_bounds as [HB _]. unfold off_t_size in HS.
  split.
  - apply Z.div_pos; lia.
  - apply Z.div_lt_upper_bound; [lia |].
    change (2 ^ 63) with (128 * 2 ^ 56) in HS. nia.
Qed.

Lemma map_size_bounds : 0 <= nmap <= bc + 1 /\ 0 <= nmap * B <= bc + B.
Proof using HK HS.
  pose proof block_size_bounds as [HB _].
  pose proof blocks_count_bounds as Hbc.
  pose proof (ceil_div_spec bc (8 * B) ltac:(lia) ltac:(lia)) as Hc.
  pose proof (ceil_div_le bc (8 * B) ltac:(lia) ltac:(lia)) as Hl.
  assert (bc / (8 * B) <= bc).
  { apply Z.div_le_upper_bound; [lia | nia]. }
  split; [lia | nia].
Qed.

Lemma table_size_bounds : 0 <= ntable <= bc.
Proof using HK HS.
  pose proof block_size_bounds as [HB HQ].
  pose proof blocks_count_bounds as Hbc.
  split.
  - apply Z.div_pos; lia.
  - apply Z.div_le_upper_bound; [lia | nia].
Qed.

(** Under the assumptions no 64-bit operation of lines 136-191 wraps,
    but for the subtraction that gives [free_blocks]. *)
Lemma init_disk_geometry_eq :
  init_disk_geometry K S =
  {| bmap := malloc_zeroed (nmap * B);
     imap := malloc_zeroed (nmap * B);
     disk_size := S;
     bmap_size := nmap;
     imap_size := nmap;
     inode_table_size := ntable;
     super_block :=
       {| version := 1;
          magic := MAGIC_NUM K;
          block_size := B;
          inodes_count := bc;
          free_blocks := u64 (bc - (RESERVE_BLOCKS K + nmap + nmap + ntable) - 1);
          blocks_count := bc;
          bmap_block := RESERVE_BLOCKS K;
          imap_block := RESERVE_BLOCKS K + nmap;
          inode_table_block := RESERVE_BLOCKS K + nmap + nmap;
          data_block_number := RESERVE_BLOCKS K + nmap + nmap + ntable |} |}.
Proof using HK HS.
  pose proof block_size_bounds as [HB HQ].
  pose proof blocks_count_bounds as Hbc.
  pose proof map_size_bounds as [Hn HnB].
  pose proof table_size_bounds as Ht.
  destruct HK as (_ & HB8 & _ & _ & HR & _).
  unfold INT_MAX in HR, HB8.
  pose proof (div_round_up bc (8 * B) ltac:(lia) ltac:(lia)) as Hr.
  assert (Hm : (if bc mod (8 * B) =? 0
                then bc / (8 * B) else u64 (bc / (8 * B) + 1)) = nmap).
  { rewrite <- Hr. destruct (bc mod (8 * B) =? 0); [reflexivity |].
    apply u64_small. rewrite <- Hr in Hn.
    destruct (bc mod (8 * B) =? 0); lia. }
  unfold init_disk_geometry. cbv zeta. rewrite Hm.
  rewrite (u64_small (nmap * B)) by lia.
  rewrite (u64_small (RESERVE_BLOCKS K + nmap)) by lia.
  rewrite (u64_small (RESERVE_BLOCKS K + nmap + nmap)) by lia.
  rewrite (u64_small (RESERVE_BLOCKS K + nmap + nmap + ntable)) by lia.
  reflexivity.
Qed.

End Geometry.

(** ** Bits of a byte buffer *)

Lemma testbit_set_bit b k j :
  0 <= k < 8 -> 0 <= j < 8 ->
  Z.testbit (u8 (Z.lor b (Z.shiftl 1 k))) j = Z.testbit b j || (j =? k).
Proof.
  intros Hk Hj. unfold u8.
  rewrite Z.mod_pow2_bits_low by lia.
  rewrite Z.lor_spec, Z.shiftl_1_l, Z.pow2_bits_eqb by lia.
  rewrite (Z.eqb_sym k j). reflexivity.
Qed.

Lemma testbit_clear_bit b k j :
  0 <= k < 8 -> 0 <= j < 8 ->
  Z.testbit (u8 (Z.land b (Z.lnot (Z.shiftl 1 k)))) j
  = Z.testbit b j && negb (j =? k).
Proof.
  intros Hk Hj. unfold u8.
  rewrite Z.mod_pow2_bits_low by lia.
  rewrite Z.land_spec, Z.lnot_spec, Z.shiftl_1_l, Z.pow2_bits_eqb by lia.
  rewrite (Z.eqb_sym k j). reflexivity.
Qed.

Lemma same_byte_same_bit i j : i / 8 = j / 8 -> (i mod 8 =? j mod 8) = (i =? j).
Proof.
  intros H.
  pose proof (Z.div_mod i 8 ltac:(lia)). pose proof (Z.div_mod j 8 ltac:(lia)).
  destruct (Z.eqb_spec (i mod 8) (j mod 8)), (Z.eqb_spec i j); try reflexivity; lia.
Qed.

Lemma get_bit_insert_set (buf : list Z) idx b i :
  0 <= idx -> 0 <= i ->
  buf !! Z.to_nat (idx / 8) = Some b ->
  get_bit (<[Z.to_nat (idx / 8) := u8 (Z.lor b (Z.shiftl 1 (idx mod 8)))]> buf) i
  = get_bit buf i || (i =? idx).
Proof.
  intros Hidx Hi Hb. unfold get_bit.
  pose proof (Z.mod_pos_bound idx 8 ltac:(lia)).
  pose proof (Z.mod_pos_bound i 8 ltac:(lia)).
  destruct (Z.eq_dec (i / 8) (idx / 8)) as [Heq | Hne].
  - rewrite Heq, list_lookup_insert_eq by (eapply lookup_lt_Some; eassumption).
    rewrite Hb, testbit_set_bit by lia.
    rewrite same_byte_same_bit by exact Heq. reflexivity.
  - assert (Z.to_nat (idx / 8) <> Z.to_nat (i / 8)).
    { pose proof (Z.div_pos idx 8 ltac:(lia) ltac:(lia)).
      pose proof (Z.div_pos i 8 ltac:(lia) ltac:(lia)). lia. }
    rewrite list_lookup_insert_ne by assumption.
    destruct (Z.eqb_spec i idx) as [-> | _]; [congruence |].
    rewrite orb_false_r. reflexivity.
Qed.

Lemma get_bit_insert_clear (buf : list Z) idx b i :
  0 <= idx -> 0 <= i ->
  buf !! Z.to_nat (idx / 8) = Some b ->
  get_bit (<[Z.to_nat (idx / 8) :=
               u8 (Z.land b (Z.lnot (Z.shiftl 1 (idx mod 8))))]> buf) i
  = get_bit buf i && negb (i =? idx).
Proof.
  intros Hidx Hi Hb. unfold get_bit.
  pose proof (Z.mod_pos_bound idx 8 ltac:(lia)).
  pose proof (Z.mod_pos_bound i 8 ltac:(lia)).
  destruct (Z.eq_dec (i / 8) (idx / 8)) as [Heq | Hne].
  - rewrite Heq, list_lookup_insert_eq by (eapply lookup_lt_Some; eassumption).
    rewrite Hb, testbit_clear_bit by lia.
    rewrite same_byte_same_bit by exact Heq. reflexivity.
  - assert (Z.to_nat (idx / 8) <> Z.to_nat (i / 8)).
    { pose proof (Z.div_pos idx 8 ltac:(lia) ltac:(lia)).
      pose proof (Z.div_pos i 8 ltac:(lia) ltac:(lia)). lia. }
    rewrite list_lookup_insert_ne by assumption.
    destruct (Z.eqb_spec i idx) as [-> | _]; [congruence |].
    rewrite andb_true_r. reflexivity.
Qed.

Lemma get_bit_zeroed n i : get_bit (replicate n 0) i = false.
Proof.
  unfold get_bit.
  destruct (replicate n 0 !! Z.to_nat (i / 8)) as [b |] eqn:Hb; [| reflexivity].
  apply lookup_replicate in Hb as [-> _]. apply Z.bits_0.
Qed.

Lemma byte_in_range (buf : list Z) i :
  0 <= i < 8 * Z.of_nat (length buf) -> exists b, buf !! Z.to_nat (i / 8) = Some b.
Proof.
  intros Hi. apply lookup_lt_is_Some_2.
  assert (i / 8 < Z.of_nat (length buf)) by (apply Z.div_lt_upper_bound; lia).
  pose proof (Z.div_pos i 8 ltac:(lia) ltac:(lia)). lia.
Qed.

(** ** Counting *)

Lemma count_below_ext f h n :
  (forall i, 0 <= i < Z.of_nat n -> f i = h i) -> count_below f n = count_below h n.
Proof.
  induction n as [| n IH]; intros Hf; [reflexivity |].
  cbn [count_below]. rewrite IH by (intros; apply Hf; lia).
  rewrite Hf by lia. reflexivity.
Qed.

Lemma count_below_prefix d n :
  -1 <= d -> count_below (fun i => i <=? d) n = Z.min (Z.of_nat n) (d + 1).
Proof.
  intros Hd. induction n as [| n IH]; [cbn; lia |].
  cbn [count_below]. rewrite IH.
  destruct (Z.leb_spec (Z.of_nat n) d); lia.
Qed.

Lemma count_set_bits_prefix (buf : list Z) d :
  -1 <= d < 8 * Z.of_nat (length buf) ->
  (forall i, 0 <= i < 8 * Z.of_nat (length buf) -> get_bit buf i = (i <=? d)) ->
  count_set_bits buf = d + 1.
Proof.
  intros Hd Hbits. unfold count_set_bits.
  rewrite (count_below_ext _ (fun i => i <=? d)) by (intros; apply Hbits; lia).
  rewrite count_below_prefix by lia. lia.
Qed.

(** ** [set_bmap] and the marking loop *)

Section Marking.

Variable K : constants.

Local Abbreviation B := (HUST_BLOCKSIZE K).

(** The guard of [set_bmap] fires exactly when the byte index is larger
    than the byte length computed from [bmap_size]. *)
Lemma set_bmap_fails_iff m buf idx value :
  bmap (statics m) = Some buf ->
  (exists m', set_bmap K idx value m = Done (-1, m'))
  <-> u64 (bmap_size (statics m) * B) < idx / 8.
Proof.
  intros Hb. unfold set_bmap. rewrite Hb.
  destruct (Z.ltb_spec (u64 (bmap_size (statics m) * B)) (idx / 8)) as [Hlt | Hge].
  - split; [intros _; exact Hlt | intros _; eexists; reflexivity].
  - split; [| lia].
    intros [m' Hm'].
    destruct (buf !! Z.to_nat (idx / 8)); discriminate.
Qed.

Lemma set_bmap_stores m buf idx b :
  bmap (statics m) = Some buf ->
  0 <= idx ->
  buf !! Z.to_nat (idx / 8) = Some b ->
  Z.of_nat (length buf) <= u64 (bmap_size (statics m) * B) ->
  set_bmap K idx 1 m
  = Done (0, Build_machine
               (with_bmap
                  (Some (<[Z.to_nat (idx / 8) :=
                             u8 (Z.lor b (Z.shiftl 1 (idx mod 8)))]> buf))
                  (statics m))
               (dev m)).
Proof.
  intros Hbuf Hidx Hb Hlen. unfold set_bmap. rewrite Hbuf.
  apply lookup_lt_Some in Hb as Hlt.
  pose proof (Z.div_pos idx 8 ltac:(lia) ltac:(lia)).
  destruct (Z.ltb_spec (u64 (bmap_size (statics m) * B)) (idx / 8)); [lia |].
  rewrite Hb. reflexivity.
Qed.

(** Within the capacity of the buffer [set_bmap] returns 0 and sets, or
    clears, bit [idx] and no other. *)
Lemma set_bmap_within_capacity m buf idx value :
  bmap (statics m) = Some buf ->
  Z.of_nat (length buf) <= u64 (bmap_size (statics m) * B) ->
  0 <= idx < 8 * Z.of_nat (length buf) ->
  exists buf',
    set_bmap K idx value m
    = Done (0, Build_machine (with_bmap (Some buf') (statics m)) (dev m)) /\
    length buf' = length buf /\
    forall i, 0 <= i ->
      get_bit buf' i = if i =? idx then negb (value =? 0) else get_bit buf i.
Proof.
  intros Hbuf Hlen Hidx.
  destruct (byte_in_range buf idx Hidx) as [b Hb].
  apply lookup_lt_Some in Hb as Hlt.
  pose proof (Z.div_pos idx 8 ltac:(lia) ltac:(lia)).
  unfold set_bmap. rewrite Hbuf.
  destruct (Z.ltb_spec (u64 (bmap_size (statics m) * B)) (idx / 8)); [lia |].
  rewrite Hb. eexists. split; [reflexivity |]. split; [apply length_insert |].
  intros i Hi. destruct (value =? 0).
  - rewrite get_bit_insert_clear by (assumption || lia).
    destruct (i =? idx); [apply andb_false_r | apply andb_true_r].
  - rewrite get_bit_insert_set by (assumption || lia).
    destruct (i =? idx); [apply orb_true_r | apply orb_false_r].
Qed.

(** The guard of [set_bmap] lets the eight bit indices after the last bit
    of the buffer through: the store then goes to the byte after the
    buffer. *)
Lemma set_bmap_past_the_end m buf idx value :
  bmap (statics m) = Some buf ->
  Z.of_nat (length buf) = u64 (bmap_size (statics m) * B) ->
  8 * Z.of_nat (length buf) <= idx < 8 * Z.of_nat (length buf) + 8 ->
  set_bmap K idx value m = Undef.
Proof.
  intros Hbuf Hlen Hidx. unfold set_bmap. rewrite Hbuf.
  assert (Hq : idx / 8 = Z.of_nat (length buf)).
  { symmetry. apply Z.div_unique with (r := idx - 8 * Z.of_nat (length buf)); lia. }
  rewrite Hq, <- Hlen.
  destruct (Z.ltb_spec (Z.of_nat (length buf)) (Z.of_nat (length buf))); [lia |].
  rewrite Nat2Z.id, lookup_ge_None_2 by lia. reflexivity.
Qed.

(** The loop on a buffer that has all the bits it is asked to set: it
    ends with 0 and has set exactly the bits [idx .. idx + n - 1], when the
    counter stays an [int]; otherwise the increment overflows. *)
Lemma mark_used_run n : forall idx m buf,
  bmap (statics m) = Some buf ->
  0 <= idx <= INT_MAX ->
  idx + Z.of_nat n <= 8 * Z.of_nat (length buf) ->
  Z.of_nat (length buf) <= u64 (bmap_size (statics m) * B) ->
  (idx + Z.of_nat n <= INT_MAX ->
   exists buf',
     mark_used K n idx m
     = Done (0, Build_machine (with_bmap (Some buf') (statics m)) (dev m)) /\
     length buf' = length buf /\
     forall i, 0 <= i ->
       get_bit buf' i = get_bit buf i || ((idx <=? i) && (i <? idx + Z.of_nat n)))
  /\ (INT_MAX < idx + Z.of_nat n -> mark_used K n idx m = Undef).
Proof.
  induction n as [| n IH]; intros idx m buf Hbuf Hidx Hcap Hlen.
  - split; [| lia]. intros _. exists buf. split; [| split].
    + cbn. unfold ret. destruct m as [[] ?]. cbn in Hbuf. subst. reflexivity.
    + reflexivity.
    + intros i Hi.
      destruct (Z.leb_spec idx i), (Z.ltb_spec i (idx + Z.of_nat 0));
        cbn; rewrite ?orb_false_r; try reflexivity; lia.
  - destruct (byte_in_range buf idx ltac:(lia)) as [b Hb].
    pose proof (set_bmap_stores m buf idx b Hbuf ltac:(lia) Hb Hlen) as Hstep.
    set (buf1 := <[Z.to_nat (idx / 8) :=
                     u8 (Z.lor b (Z.shiftl 1 (idx mod 8)))]> buf) in *.
    set (m1 := Build_machine (with_bmap (Some buf1) (statics m)) (dev m)) in *.
    assert (Hlen1 : length buf1 = length buf) by apply length_insert.
    assert (Hunf : mark_used K (Datatypes.S n) idx m
                   = if idx =? INT_MAX then Undef else mark_used K n (idx + 1) m1).
    { cbn [mark_used]. unfold bind at 1. rewrite Hstep.
      change (0 =? 0) with true. cbv iota.
      destruct (idx =? INT_MAX); reflexivity. }
    rewrite Hunf.
    destruct (Z.eqb_spec idx INT_MAX) as [Hmax | Hmax].
    + split; [lia | reflexivity].
    + destruct (IH (idx + 1) m1 buf1) as [IHok IHundef].
      * reflexivity.
      * lia.
      * rewrite Hlen1. lia.
      * rewrite Hlen1. exact Hlen.
      * split; [| intros; apply IHundef; lia].
        intros Hint. destruct IHok as (buf' & Hrun & Hlen' & Hbits); [lia |].
        exists buf'. split; [exact Hrun | split; [congruence |]].
        intros i Hi. rewrite Hbits by lia. unfold buf1.
        rewrite get_bit_insert_set by (assumption || lia).
        destruct (Z.eqb_spec i idx), (Z.leb_spec (idx + 1) i), (Z.leb_spec idx i),
          (Z.ltb_spec i (idx + 1 + Z.of_nat n)),
          (Z.ltb_spec i (idx + Z.of_nat (Datatypes.S n)));
          cbn; rewrite ?orb_false_r, ?orb_true_r; try reflexivity; lia.
Qed.

End Marking.

(** ** [init_disk] *)

Lemma get_bit_first_two (buf : list Z) b i :
  0 <= i -> buf !! 0%nat = Some b -> (forall j, get_bit buf j = false) ->
  get_bit (<[0%nat := u8 (Z.lor b 3)]> buf) i = (i <? 2).
Proof.
  intros Hi Hb Hz.
  assert (H0 : get_bit (<[Z.to_nat (0 / 8) :=
                            u8 (Z.lor b (Z.shiftl 1 (0 mod 8)))]> buf) i
               = get_bit buf i || (i =? 0))
    by (apply get_bit_insert_set; [lia | lia | exact Hb]).
  change (Z.to_nat (0 / 8)) with 0%nat in H0.
  change (Z.shiftl 1 (0 mod 8)) with 1 in H0.
  rewrite Hz in H0. cbn [orb] in H0.
  unfold get_bit in *.
  pose proof (Z.mod_pos_bound i 8 ltac:(lia)) as Hm.
  destruct (Z.eq_dec (i / 8) 0) as [Hq | Hq].
  - rewrite Hq in *. change (Z.to_nat 0) with 0%nat in *.
    rewrite list_lookup_insert_eq in * by (eapply lookup_lt_Some; eassumption).
    assert (Hi8 : i = i mod 8) by (pose proof (Z.div_mod i 8 ltac:(lia)); lia).
    unfold u8 in *. rewrite Z.mod_pow2_bits_low in * by lia.
    rewrite Z.lor_spec in *.
    specialize (Hz i). rewrite Hq in Hz. change (Z.to_nat 0) with 0%nat in Hz.
    rewrite Hb in Hz. rewrite Hz in *. cbn [orb] in *.
    assert (Hcases : i mod 8 = 0 \/ i mod 8 = 1 \/ 2 <= i mod 8 < 8) by lia.
    destruct Hcases as [Hc | [Hc | Hc]].
    + rewrite Hc. replace i with 0 by lia. reflexivity.
    + rewrite Hc. replace i with 1 by lia. reflexivity.
    + destruct (Z.ltb_spec i 2); [lia |].
      assert (Hc' : i mod 8 = 2 \/ i mod 8 = 3 \/ i mod 8 = 4 \/ i mod 8 = 5 \/
                    i mod 8 = 6 \/ i mod 8 = 7) by lia.
      destruct Hc' as [-> | [-> | [-> | [-> | [-> | ->]]]]]; reflexivity.
  - assert (0%nat <> Z.to_nat (i / 8)).
    { pose proof (Z.div_pos i 8 ltac:(lia) ltac:(lia)). lia. }
    rewrite list_lookup_insert_ne by assumption.
    specialize (Hz i). unfold get_bit in Hz. rewrite Hz.
    destruct (Z.ltb_spec i 2); [| reflexivity].
    exfalso. apply Hq. apply Z.div_small. lia.
Qed.

Section InitDisk.

Variable K : constants.
Variable E : env.
Hypothesis HK : good_constants K.
Variable S : Z.
Hypothesis HS : off_t_size S.
Hypothesis Hstat : stat_size E = Some S.

Local Abbreviation B := (HUST_BLOCKSIZE K).
Local Abbreviation gl := (init_disk_geometry K S).
Local Abbreviation dbn := (data_block_number (super_block (init_disk_geometry K S))).

Lemma geometry_nonneg :
  0 <= bmap_size gl /\ 0 <= imap_size gl /\ 0 <= inode_table_size gl /\
  0 <= dbn < 2 ^ 58 /\ imap_size gl = bmap_size gl /\
  0 <= bmap_size gl * B < 2 ^ 57.
Proof using HK HS.
  rewrite (init_disk_geometry_eq K HK S HS). cbn.
  pose proof (block_size_bounds K HK) as [HB HQ].
  pose proof (blocks_count_bounds K HK S HS) as Hbc.
  pose proof (map_size_bounds K HK S HS) as [Hn HnB].
  pose proof (table_size_bounds K HK S HS) as Ht.
  destruct HK as (_ & HB8 & _ & _ & HR & _). unfold INT_MAX in *.
  repeat split; lia.
Qed.

(** The run of [init_disk] on a device with at least one block whose
    bitmap has a bit for the root directory's block. *)
Lemma init_disk_run m :
  1 <= S / B ->
  dbn < 8 * (bmap_size gl * B) ->
  (dbn + 1 <= INT_MAX ->
   exists bm im,
     init_disk K E m
     = Done (0, Build_machine (with_imap (Some im) (with_bmap (Some bm) gl)) (dev m)) /\
     Z.of_nat (length bm) = bmap_size gl * B /\
     Z.of_nat (length im) = imap_size gl * B /\
     (forall i, 0 <= i -> get_bit bm i = (i <=? dbn)) /\
     (forall i, 0 <= i -> get_bit im i = (i <? 2)))
  /\ (INT_MAX < dbn + 1 -> init_disk K E m = Undef).
Proof using HK HS Hstat.
  intros Hone Hfit.
  pose proof geometry_nonneg as (Hbs & His & Hts & Hd & Heq & HbB).
  pose proof (block_size_bounds K HK) as [HB HQ].
  assert (Hbm : bmap gl = malloc_zeroed (bmap_size gl * B)).
  { rewrite (init_disk_geometry_eq K HK S HS). reflexivity. }
  assert (Him : imap gl = malloc_zeroed (imap_size gl * B)).
  { rewrite (init_disk_geometry_eq K HK S HS). reflexivity. }
  assert (Hpos : 1 <= bmap_size gl).
  { rewrite (init_disk_geometry_eq K HK S HS). cbn.
    apply ceil_div_pos; lia. }
  set (buf0 := replicate (Z.to_nat (bmap_size gl * B)) 0).
  set (m0 := Build_machine gl (dev m)).
  assert (Hlen0 : Z.of_nat (length buf0) = bmap_size gl * B).
  { unfold buf0. rewrite length_replicate. lia. }
  destruct (mark_used_run K (Z.to_nat (u64 (dbn + 1))) 0 m0 buf0) as [Hok Hundef].
  { exact Hbm. }
  { unfold INT_MAX. lia. }
  { rewrite u64_small by lia. lia. }
  { cbn [m0 statics]. rewrite u64_small by lia. lia. }
  assert (Hunf : init_disk K E m
                 = match mark_used K (Z.to_nat (u64 (dbn + 1))) 0 m0 with
                   | Done (r, m') =>
                       (if r =? 0 then set_imap ;;; ret 0 else ret (-1)) m'
                   | Undef => Undef
                   end).
  { unfold init_disk, bind, get_globals, put_globals, get_file_size.
    rewrite Hstat. cbn [statics dev].
    rewrite (u64_small S) by (unfold off_t_size in HS; lia).
    rewrite u64_minus_one.
    destruct (Z.eqb_spec S (2 ^ 64 - 1)) as [Hbad | _];
      [unfold off_t_size in HS; lia |].
    reflexivity. }
  rewrite Hunf. rewrite u64_small in Hok, Hundef by lia.
  rewrite (u64_small (dbn + 1)) by lia.
  split.
  - intros Hint. destruct Hok as (bm & Hrun & Hlen & Hbits); [lia |].
    rewrite Hrun. change (0 =? 0) with true. cbv iota.
    assert (Hnz : exists b0, replicate (Z.to_nat (imap_size gl * B)) 0 !! 0%nat = Some b0).
    { apply lookup_lt_is_Some_2. rewrite length_replicate. nia. }
    destruct Hnz as [b0 Hb0].
    exists bm, (<[0%nat := u8 (Z.lor b0 3)]> (replicate (Z.to_nat (imap_size gl * B)) 0)).
    split; [| split; [| split; [| split]]].
    + unfold bind, set_imap. cbn [statics dev m0 with_bmap imap].
      rewrite Him. unfold malloc_zeroed. rewrite Hb0. reflexivity.
    + lia.
    + rewrite length_insert, length_replicate. nia.
    + intros i Hi. rewrite Hbits by lia. unfold buf0.
      rewrite get_bit_zeroed. cbn [orb].
      destruct (Z.leb_spec 0 i), (Z.ltb_spec i (0 + Z.of_nat (Z.to_nat (dbn + 1)))),
        (Z.leb_spec i dbn); cbn; try reflexivity; lia.
    + intros i Hi. apply get_bit_first_two; [lia | exact Hb0 |].
      intros j. apply get_bit_zeroed.
  - intros Hint. rewrite Hundef by lia. reflexivity.
Qed.

End InitDisk.

(** ** The writers, when every system call succeeds *)

Section Writers.

Variable K : constants.
Variable E : env.
Hypothesis HK : good_constants K.
Hypothesis Hio : io_succeeds E.

Local Abbreviation B := (HUST_BLOCKSIZE K).

(** The device after a complete [write] of [n] bytes of [p]. *)
Local Abbreviation wrote p n d :=
  {| offset := offset d + n;
     trace := trace d ++ [EWrite (offset d) p n n];
     nwrites := Datatypes.S (nwrites d);
     ntimes := ntimes d |}.

Lemma record_sizes :
  0 < HUST_INODE_SIZE K < 2 ^ 31 /\ 0 < sizeof_dir_record K < 2 ^ 32.
Proof using HK.
  destruct HK as (HB & HB8 & HN & HI & _ & HF).
  unfold INT_MAX, HUST_INODE_SIZE, sizeof_dir_record in *.
  pose proof (Z.div_mod (HUST_FILENAME_MAX_LEN K + 7) 8 ltac:(lia)).
  pose proof (Z.mod_pos_bound (HUST_FILENAME_MAX_LEN K + 7) 8 ltac:(lia)).
  lia.
Qed.

Lemma sys_write_complete p n m :
  0 <= n ->
  sys_write E p n m = Done (n, Build_machine (statics m) (wrote p n (dev m))).
Proof using Hio.
  intros Hn. unfold sys_write. destruct Hio as [Hw _]. rewrite Hw.
  destruct (Z.leb_spec 0 n); [reflexivity | lia].
Qed.

Lemma write_dummy_run m :
  write_dummy K E m
  = Done (0, Build_machine (statics m) (wrote (PZeros B) B (dev m))).
Proof using HK Hio.
  destruct HK as (HB & _).
  unfold write_dummy, bind. rewrite sys_write_complete by lia.
  rewrite Z.eqb_refl. reflexivity.
Qed.

Lemma write_sb_run m :
  write_sb K E m
  = Done (if sizeof_super_block =? B then 0 else -1,
          Build_machine (statics m)
            (wrote (PSuper (super_block (statics m))) sizeof_super_block (dev m))).
Proof using Hio.
  unfold write_sb, bind, get_globals.
  rewrite sys_write_complete by (unfold sizeof_super_block; lia).
  destruct (sizeof_super_block =? B); reflexivity.
Qed.

Lemma write_bmap_run m :
  0 <= bmap_size (statics m) * B < 2 ^ 64 ->
  write_bmap K E m
  = Done (0, Build_machine (statics m)
               (wrote (PBuffer (bmap (statics m))) (bmap_size (statics m) * B) (dev m))).
Proof using Hio.
  intros Hn. unfold write_bmap, bind, get_globals.
  rewrite (u64_small _ Hn).
  rewrite sys_write_complete by lia.
  rewrite (u64_small _ Hn), Z.eqb_refl. reflexivity.
Qed.

Lemma write_imap_run m :
  0 <= imap_size (statics m) * B < 2 ^ 64 ->
  write_imap K E m
  = Done (0, Build_machine (statics m)
               (wrote (PBuffer (imap (statics m))) (imap_size (statics m) * B) (dev m))).
Proof using Hio.
  intros Hn. unfold write_imap, bind, get_globals.
  rewrite (u64_small _ Hn).
  rewrite sys_write_complete by lia.
  rewrite (u64_small _ Hn), Z.eqb_refl. reflexivity.
Qed.

Lemma memcpy_name_fits (name : string) m :
  Z.of_nat (String.length name) + 1 <= 5 ->
  memcpy_name K name m = Done (name, m).
Proof using HK.
  intros Hlen. destruct HK as (_ & _ & _ & _ & _ & HF).
  unfold memcpy_name.
  destruct (Z.leb_spec (Z.of_nat (String.length name) + 1) (HUST_FILENAME_MAX_LEN K));
    [reflexivity | lia].
Qed.

Lemma write_itable_run m :
  let d := dev m in
  let dbn := data_block_number (super_block (statics m)) in
  let isz := HUST_INODE_SIZE K in
  let rsz := sizeof_dir_record K in
  let target := dbn * B in
  0 <= target < 2 ^ 63 ->
  write_itable K E m
  = Done (0, Build_machine (statics m)
               {| offset := target + rsz + rsz + rsz;
                  trace :=
                    trace d ++
                    [EWrite (offset d)
                       (PInode (root_dir_inode K E dbn (time E (ntimes d)))) isz isz;
                     EWrite (offset d + isz)
                       (PInode (onefile_inode K E (time E (Datatypes.S (ntimes d)))))
                       isz isz;
                     ESeekCur (offset d + isz + isz)
                       (lseek_cur_ret E (offset d + isz + isz));
                     ESeek target (lseek_ret E target);
                     EWrite target
                       (PDirRecord {| filename := ".";
                                      dir_inode_no := HUST_ROOT_INODE_NUM K |})
                       rsz rsz;
                     EWrite (target + rsz)
                       (PDirRecord {| filename := "..";
                                      dir_inode_no := HUST_ROOT_INODE_NUM K |})
                       rsz rsz;
                     EWrite (target + rsz + rsz)
                       (PDirRecord {| filename := "file"; dir_inode_no := 1 |})
                       rsz rsz];
                  nwrites := (5 + nwrites d)%nat;
                  ntimes := (2 + ntimes d)%nat |}).
Proof using HK Hio.
  intros d dbn isz rsz target Htarget.
  pose proof record_sizes as [Hisz Hrsz].
  assert (Hu1 : u64 isz = isz) by (apply u64_small; unfold isz; lia).
  assert (Hu2 : u64 rsz = rsz) by (apply u64_small; unfold rsz; lia).
  unfold write_itable, get_globals, sys_time.
  unfold bind at 1. unfold bind at 1. unfold bind at 1.
  rewrite sys_write_complete by lia.
  fold isz. rewrite Hu1, Z.eqb_refl. cbn [negb].
  unfold bind at 1. unfold bind at 1.
  rewrite sys_write_complete by lia.
  rewrite Hu1, Z.eqb_refl. cbn [negb].
  unfold bind at 1. rewrite memcpy_name_fits by (cbn; lia).
  unfold bind at 1. rewrite memcpy_name_fits by (cbn; lia).
  unfold bind at 1. rewrite memcpy_name_fits by (cbn; lia).
  unfold bind at 1. unfold sys_lseek_cur.
  cbn [dev statics offset trace nwrites ntimes].
  unfold bind at 1. unfold sys_lseek. cbn [dev statics offset trace nwrites ntimes].
  fold dbn. fold target. rewrite (i64_small _ Htarget).
  destruct Hio as [_ Hseek].
  destruct (Z.eqb_spec (lseek_ret E target) (-1)) as [Hbad | _];
    [exfalso; exact (Hseek _ (proj1 Htarget) Hbad) |].
  fold rsz.
  unfold bind at 1. rewrite sys_write_complete by lia.
  unfold bind at 1. rewrite sys_write_complete by lia.
  unfold bind at 1. rewrite sys_write_complete by lia.
  rewrite Hu2, Z.eqb_refl. cbn [negb].
  cbn [dev statics offset trace nwrites ntimes].
  unfold ret. rewrite <- !app_assoc. cbn [app]. reflexivity.
Qed.

End Writers.

(** ** [main] and its stages *)

(** [main] with one argument and an opened device runs the six stages and
    returns 1, whatever they returned. *)
Lemma main_runs_stages K E m :
  open_ret E <> -1 ->
  main K E 2 m
  = match stage_codes K E m with
    | Done (_, m') => Done (1, m')
    | Undef => Undef
    end.
Proof.
  intros Hopen. unfold main, stage_codes.
  change (negb (2 =? 2)) with false. cbv iota.
  destruct (Z.eqb_spec (open_ret E) (-1)) as [Hbad | _]; [contradiction |].
  unfold bind.
  destruct (init_disk K E m) as [[c1 m1] |]; [| reflexivity].
  destruct (write_dummy K E m1) as [[c2 m2] |]; [| reflexivity].
  destruct (write_sb K E m2) as [[c3 m3] |]; [| reflexivity].
  destruct (write_bmap K E m3) as [[c4 m4] |]; [| reflexivity].
  destruct (write_imap K E m4) as [[c5 m5] |]; [| reflexivity].
  destruct (write_itable K E m5) as [[c6 m6] |]; reflexivity.
Qed.

Section Run.

Variable K : constants.
Variable E : env.
Variable S : Z.
Hypothesis HK : good_constants K.
Hypothesis HS : off_t_size S.
Hypothesis Hall : all_succeed E S.

Local Abbreviation B := (HUST_BLOCKSIZE K).
Local Abbreviation gl := (init_disk_geometry K S).
Local Abbreviation sb := (super_block (init_disk_geometry K S)).
Local Abbreviation dbn := (data_block_number (super_block (init_disk_geometry K S))).
Local Abbreviation isz := (HUST_INODE_SIZE K).
Local Abbreviation rsz := (sizeof_dir_record K).

Hypothesis Hone : 1 <= S / B.
Hypothesis Hfit : dbn < 8 * (bmap_size gl * B).
Hypothesis Hint : dbn + 1 <= INT_MAX.
Hypothesis Hoff : dbn * B < 2 ^ 63.

(** The whole run when no system call fails: the values of the stages, the
    statics and the system calls, in order. *)
Lemma stages_run m :
  let d := dev m in
  let o := offset d in
  let target := dbn * B in
  exists bm im,
    Z.of_nat (length bm) = bmap_size gl * B /\
    Z.of_nat (length im) = imap_size gl * B /\
    (forall i, 0 <= i -> get_bit bm i = (i <=? dbn)) /\
    (forall i, 0 <= i -> get_bit im i = (i <? 2)) /\
    init_disk K E m
    = Done (0, Build_machine (with_imap (Some im) (with_bmap (Some bm) gl)) d) /\
    stage_codes K E m
    = Done ([0; 0; if sizeof_super_block =? B then 0 else -1; 0; 0; 0],
            Build_machine (with_imap (Some im) (with_bmap (Some bm) gl))
              {| offset := target + rsz + rsz + rsz;
                 trace :=
                   trace d ++
                   [EWrite o (PZeros B) B B;
                    EWrite (o + B) (PSuper sb) sizeof_super_block sizeof_super_block;
                    EWrite (o + B + sizeof_super_block) (PBuffer (Some bm))
                      (bmap_size gl * B) (bmap_size gl * B);
                    EWrite (o + B + sizeof_super_block + bmap_size gl * B)
                      (PBuffer (Some im)) (imap_size gl * B) (imap_size gl * B);
                    EWrite (o + B + sizeof_super_block + bmap_size gl * B
                            + imap_size gl * B)
                      (PInode (root_dir_inode K E dbn (time E (ntimes d)))) isz isz;
                    EWrite (o + B + sizeof_super_block + bmap_size gl * B
                            + imap_size gl * B + isz)
                      (PInode (onefile_inode K E (time E (Datatypes.S (ntimes d)))))
                      isz isz;
                    ESeekCur (o + B + sizeof_super_block + bmap_size gl * B
                              + imap_size gl * B + isz + isz)
                      (lseek_cur_ret E (o + B + sizeof_super_block
                                        + bmap_size gl * B + imap_size gl * B
                                        + isz + isz));
                    ESeek target (lseek_ret E target);
                    EWrite target
                      (PDirRecord {| filename := ".";
                                     dir_inode_no := HUST_ROOT_INODE_NUM K |})
                      rsz rsz;
                    EWrite (target + rsz)
                      (PDirRecord {| filename := "..";
                                     dir_inode_no := HUST_ROOT_INODE_NUM K |})
                      rsz rsz;
                    EWrite (target + rsz + rsz)
                      (PDirRecord {| filename := "file"; dir_inode_no := 1 |})
                      rsz rsz];
                 nwrites := (9 + nwrites d)%nat;
                 ntimes := (2 + ntimes d)%nat |}).
Proof using HK HS Hall Hone Hfit Hint Hoff.
  intros d o target.
  destruct Hall as (Hstat & Hio & Hopen).
  destruct (init_disk_run K E HK S HS Hstat m Hone Hfit) as [Hok _].
  destruct (Hok Hint) as (bm & im & Hrun & Hlbm & Hlim & Hbm & Him).
  pose proof (geometry_nonneg K HK S HS) as (Hbs & His & Hts & Hd & Heq & HbB).
  exists bm, im. do 4 (split; [assumption |]).
  split; [exact Hrun |].
  unfold stage_codes.
  unfold bind at 1. rewrite Hrun.
  unfold bind at 1. rewrite (write_dummy_run K E HK Hio).
  unfold bind at 1. rewrite (write_sb_run K E Hio).
  unfold bind at 1. rewrite (write_bmap_run K E Hio)
    by (cbn [statics with_imap with_bmap bmap_size]; lia).
  unfold bind at 1. rewrite (write_imap_run K E Hio)
    by (cbn [statics with_imap with_bmap imap_size]; lia).
  unfold bind at 1. rewrite (write_itable_run K E HK Hio)
    by (cbn [statics with_imap with_bmap super_block];
        pose proof (block_size_bounds K HK); nia).
  cbn [statics dev offset trace nwrites ntimes with_imap with_bmap
       bmap imap bmap_size imap_size super_block].
  unfold ret. rewrite <- !app_assoc. cbn [app].
  reflexivity.
Qed.

End Run.

(** ** What [init_disk] leaves untouched *)

Lemma same_layout_refl x : same_layout x x.
Proof. repeat split. Qed.

Lemma same_layout_trans x y z : same_layout x y -> same_layout y z -> same_layout x z.
Proof.
  unfold same_layout. intros (? & ? & ? & ? & ?) (? & ? & ? & ? & ?).
  repeat split; congruence.
Qed.

Lemma set_bmap_keeps K idx value m r m' :
  set_bmap K idx value m = Done (r, m') ->
  same_layout (statics m') (statics m) /\ dev m' = dev m.
Proof.
  unfold set_bmap. intros H.
  destruct (bmap (statics m)) as [buf |].
  - destruct (u64 (bmap_size (statics m) * HUST_BLOCKSIZE K) <? idx / 8).
    + injection H as _ <-. split; [apply same_layout_refl | reflexivity].
    + destruct (buf !! Z.to_nat (idx / 8)); [| discriminate].
      injection H as _ <-. split; [repeat split | reflexivity].
  - injection H as _ <-. split; [apply same_layout_refl | reflexivity].
Qed.

Lemma mark_used_keeps K n : forall idx m r m',
  mark_used K n idx m = Done (r, m') ->
  same_layout (statics m') (statics m) /\ dev m' = dev m.
Proof.
  induction n as [| n IH]; intros idx m r m' H.
  - injection H as _ <-. split; [apply same_layout_refl | reflexivity].
  - cbn [mark_used] in H. unfold bind in H.
    destruct (set_bmap K idx 1 m) as [[r1 m1] |] eqn:Hset; [| discriminate].
    apply set_bmap_keeps in Hset as [Hl Hd].
    destruct (r1 =? 0).
    + destruct (idx =? INT_MAX); [discriminate |].
      apply IH in H as [Hl' Hd'].
      split; [eapply same_layout_trans; eassumption | congruence].
    + injection H as _ <-. split; assumption.
Qed.

Lemma set_imap_keeps m r m' :
  set_imap m = Done (r, m') ->
  same_layout (statics m') (statics m) /\ dev m' = dev m.
Proof.
  unfold set_imap. intros H.
  destruct (imap (statics m)) as [buf |]; [| discriminate].
  destruct (buf !! 0%nat); [| discriminate].
  injection H as _ <-. split; [repeat split | reflexivity].
Qed.

(** Whatever [init_disk] returns after a successful [stat], the geometry in
    the statics is the one of lines 136-191, and the device has not been
    touched. *)
Lemma init_disk_keeps K E S m r m' :
  stat_size E = Some S -> off_t_size S ->
  init_disk K E m = Done (r, m') ->
  same_layout (statics m') (init_disk_geometry K S) /\ dev m' = dev m.
Proof.
  intros Hstat HS. unfold init_disk, get_file_size. rewrite Hstat.
  unfold bind at 1. unfold get_globals. unfold bind at 1. unfold put_globals.
  rewrite (u64_small S) by (unfold off_t_size in HS; lia).
  rewrite u64_minus_one.
  destruct (Z.eqb_spec S (2 ^ 64 - 1)) as [Hbad | _];
    [unfold off_t_size in HS; lia |].
  unfold bind at 1. unfold bind at 1. cbn [statics dev].
  destruct (mark_used K _ 0 _) as [[r1 m1] |] eqn:Hloop; [| discriminate].
  apply mark_used_keeps in Hloop as [Hl Hd]. cbn [statics dev] in Hl, Hd.
  destruct (r1 =? 0).
  - unfold bind. destruct (set_imap m1) as [[u m2] |] eqn:Himap; [| discriminate].
    apply set_imap_keeps in Himap as [Hl' Hd'].
    intros H. injection H as _ <-.
    split; [eapply same_layout_trans; eassumption | congruence].
  - intros H. injection H as _ <-. split; assumption.
Qed.

(** ** A run in which nothing fails, on a device of at least the minimum
    size *)

Section SuccessfulRun.

Variable K : constants.
Variable E : env.
Variable S : Z.
Hypothesis HK : good_constants K.
Hypothesis HS : off_t_size S.
Hypothesis Hall : all_succeed E S.

Local Abbreviation B := (HUST_BLOCKSIZE K).
Local Abbreviation gl := (init_disk_geometry K S).
Local Abbreviation sb := (super_block (init_disk_geometry K S)).
Local Abbreviation dbn := (data_block_number (super_block (init_disk_geometry K S))).
Local Abbreviation isz := (HUST_INODE_SIZE K).
Local Abbreviation rsz := (sizeof_dir_record K).

Hypothesis Hmin : dbn + 1 <= blocks_count sb.
Hypothesis Hint : dbn + 1 <= INT_MAX.

Lemma minimum_size_facts :
  1 <= S / B /\ dbn < 8 * (bmap_size gl * B) /\ 0 <= dbn * B < 2 ^ 63.
Proof using HK HS Hmin.
  pose proof (block_size_bounds K HK) as [HB HQ].
  pose proof (blocks_count_bounds K HK S HS) as Hbc.
  pose proof (geometry_nonneg K HK S HS) as (Hbs & His & Hts & Hd & Heq & HbB).
  assert (Hb : blocks_count sb = S / B)
    by (rewrite (init_disk_geometry_eq K HK S HS); reflexivity).
  assert (Hcap : blocks_count sb <= 8 * (bmap_size gl * B)).
  { rewrite (init_disk_geometry_eq K HK S HS). cbn.
    pose proof (ceil_div_spec (S / B) (8 * B) ltac:(lia) ltac:(lia)). lia. }
  pose proof (Z.mul_div_le S B ltac:(lia)) as Hle.
  unfold off_t_size in HS.
  split; [lia |]. split; [lia |]. nia.
Qed.

Lemma successful_run :
  exists bm im,
    Z.of_nat (length bm) = bmap_size gl * B /\
    Z.of_nat (length im) = imap_size gl * B /\
    (forall i, 0 <= i -> get_bit bm i = (i <=? dbn)) /\
    (forall i, 0 <= i -> get_bit im i = (i <? 2)) /\
    let mf :=
      Build_machine (with_imap (Some im) (with_bmap (Some bm) gl))
        {| offset := dbn * B + rsz + rsz + rsz;
           trace :=
             [EWrite 0 (PZeros B) B B;
              EWrite B (PSuper sb) sizeof_super_block sizeof_super_block;
              EWrite (B + sizeof_super_block) (PBuffer (Some bm))
                (bmap_size gl * B) (bmap_size gl * B);
              EWrite (B + sizeof_super_block + bmap_size gl * B)
                (PBuffer (Some im)) (imap_size gl * B) (imap_size gl * B);
              EWrite (B + sizeof_super_block + bmap_size gl * B + imap_size gl * B)
                (PInode (root_dir_inode K E dbn (time E 0))) isz isz;
              EWrite (B + sizeof_super_block + bmap_size gl * B + imap_size gl * B
                      + isz)
                (PInode (onefile_inode K E (time E 1))) isz isz;
              ESeekCur (B + sizeof_super_block + bmap_size gl * B
                        + imap_size gl * B + isz + isz)
                (lseek_cur_ret E (B + sizeof_super_block + bmap_size gl * B
                                  + imap_size gl * B + isz + isz));
              ESeek (dbn * B) (lseek_ret E (dbn * B));
              EWrite (dbn * B)
                (PDirRecord {| filename := ".";
                               dir_inode_no := HUST_ROOT_INODE_NUM K |})
                rsz rsz;
              EWrite (dbn * B + rsz)
                (PDirRecord {| filename := "..";
                               dir_inode_no := HUST_ROOT_INODE_NUM K |})
                rsz rsz;
              EWrite (dbn * B + rsz + rsz)
                (PDirRecord {| filename := "file"; dir_inode_no := 1 |})
                rsz rsz];
           nwrites := 9;
           ntimes := 2 |} in
    stage_codes K E initial_machine
    = Done ([0; 0; if sizeof_super_block =? B then 0 else -1; 0; 0; 0], mf) /\
    main K E 2 initial_machine = Done (1, mf).
Proof using HK HS Hall Hmin Hint.
  pose proof minimum_size_facts as (Hone & Hfit & Hoff).
  destruct (stages_run K E S HK HS Hall Hone Hfit Hint (proj2 Hoff) initial_machine)
    as (bm & im & Hlbm & Hlim & Hbm & Him & _ & Hrun).
  exists bm, im. do 4 (split; [assumption |]).
  cbv zeta.
  cbn [initial_machine dev initial_world offset trace nwrites ntimes
       app Nat.add Z.add] in Hrun.
  split; [exact Hrun |].
  rewrite main_runs_stages by (destruct Hall as (_ & _ & Hopen); exact Hopen).
  rewrite Hrun. reflexivity.
Qed.

End SuccessfulRun.

(** The side conditions of the instances below: the constants of the
    header are good, and nothing fails in a quiet environment. *)
Ltac header_constants_ok :=
  unfold good_constants, INT_MAX, HUST_INODE_SIZE; cbn; lia.

Ltac quiet_env_ok :=
  unfold all_succeed, io_succeeds; cbn;
  split; [reflexivity |]; split; [| lia];
  split; [reflexivity |];
  let o := fresh "o" in
  let Ho := fresh "Ho" in
  intros o Ho; destruct (Z.ltb_spec o 0); lia.

(** * The claims *)

(** C1, as stated, fails on a device smaller than one block (an empty
    image, or a block device, for which [stat] reports size 0): the two
    bitmaps get 0 blocks, not a minimum of 1, and [free_blocks] is not the
    integer [0 - 2 - 1]. *)
Lemma geometry_claim_fails_on_empty_device :
  ~ (blocks_count (super_block (init_disk_geometry hust 0)) = 0 / 4096 /\
     inodes_count (super_block (init_disk_geometry hust 0))
     = blocks_count (super_block (init_disk_geometry hust 0)) /\
     bmap_size (init_disk_geometry hust 0)
     = Z.max 1 (ceil_div (blocks_count (super_block (init_disk_geometry hust 0)))
                  (8 * 4096)) /\
     imap_size (init_disk_geometry hust 0)
     = Z.max 1 (ceil_div (inodes_count (super_block (init_disk_geometry hust 0)))
                  (8 * 4096)) /\
     inode_table_size (init_disk_geometry hust 0)
     = inodes_count (super_block (init_disk_geometry hust 0)) / (4096 / 264) /\
     data_block_number (super_block (init_disk_geometry hust 0))
     = 2 + bmap_size (init_disk_geometry hust 0)
       + imap_size (init_disk_geometry hust 0)
       + inode_table_size (init_disk_geometry hust 0) /\
     free_blocks (super_block (init_disk_geometry hust 0))
     = blocks_count (super_block (init_disk_geometry hust 0))
       - data_block_number (super_block (init_disk_geometry hust 0)) - 1).
Proof.
  vm_compute. intros (_ & _ & Hbmap & _). discriminate Hbmap.
Qed.

(** C1 (amended).  For every device size [S] that [stat] can report, the
    geometry computed by [init_disk] is: [blocks_count = S / B];
    [inodes_count = blocks_count]; [bmap_size] and [imap_size] are the
    ceiling of [blocks_count / (8 * B)], which is at least 1 when there is
    at least one block and 0 when there is none; [inode_table_size] is the
    floor of [inodes_count / (B / inode size)]; [data_block_number] is the
    sum of the reserved blocks and the three sizes; [free_blocks] is
    [blocks_count - data_block_number - 1] modulo [2^64], that is the
    integer itself when [blocks_count] is at least [data_block_number + 1].
    The statics keep these values when [init_disk] returns. *)
Theorem init_disk_geometry_spec K E S m :
  good_constants K -> off_t_size S -> stat_size E = Some S ->
  let gl := init_disk_geometry K S in
  let sb := super_block gl in
  let B := HUST_BLOCKSIZE K in
  blocks_count sb = S / B /\
  inodes_count sb = blocks_count sb /\
  bmap_size gl = ceil_div (blocks_count sb) (8 * B) /\
  imap_size gl = ceil_div (inodes_count sb) (8 * B) /\
  8 * B * (bmap_size gl - 1) < blocks_count sb <= 8 * B * bmap_size gl /\
  (1 <= blocks_count sb -> 1 <= bmap_size gl /\ 1 <= imap_size gl) /\
  (blocks_count sb = 0 -> bmap_size gl = 0 /\ imap_size gl = 0) /\
  inode_table_size gl = inodes_count sb / (B / HUST_INODE_SIZE K) /\
  data_block_number sb
  = RESERVE_BLOCKS K + bmap_size gl + imap_size gl + inode_table_size gl /\
  free_blocks sb = (blocks_count sb - data_block_number sb - 1) mod 2 ^ 64 /\
  (data_block_number sb + 1 <= blocks_count sb ->
   free_blocks sb = blocks_count sb - data_block_number sb - 1) /\
  (forall r m', init_disk K E m = Done (r, m') -> same_layout (statics m') gl).
Proof.
  intros HK HS Hstat. cbv zeta.
  pose proof (block_size_bounds K HK) as [HB HQ].
  pose proof (blocks_count_bounds K HK S HS) as Hbc.
  pose proof (map_size_bounds K HK S HS) as [Hn HnB].
  pose proof (table_size_bounds K HK S HS) as Ht.
  pose proof (ceil_div_spec (S / HUST_BLOCKSIZE K) (8 * HUST_BLOCKSIZE K)
                ltac:(lia) ltac:(lia)) as Hceil.
  assert (HR : 0 <= RESERVE_BLOCKS K <= INT_MAX) by (destruct HK; tauto).
  unfold INT_MAX in HR.
  rewrite (init_disk_geometry_eq K HK S HS).
  cbn [super_block blocks_count inodes_count bmap_size imap_size inode_table_size
       data_block_number free_blocks].
  split; [reflexivity |].
  split; [reflexivity |].
  split; [reflexivity |].
  split; [reflexivity |].
  split; [lia |].
  split. { intros H1. split; apply ceil_div_pos; lia. }
  split. { intros H0. rewrite H0. split; apply ceil_div_zero; lia. }
  split; [reflexivity |].
  split; [reflexivity |].
  split; [reflexivity |].
  split. { intros Hmin. apply u64_small. lia. }
  intros r m' Hrun.
  apply (init_disk_keeps K E S m r m' Hstat HS) in Hrun as [Hl _].
  rewrite (init_disk_geometry_eq K HK S HS) in Hl. exact Hl.
Qed.

(** C1, witness: the geometry for a 409,600-byte image and the constants
    of the header. *)
Lemma init_disk_geometry_spec_witness :
  blocks_count (super_block geometry_400K) = 409600 / 4096 /\
  inodes_count (super_block geometry_400K)
  = blocks_count (super_block geometry_400K) /\
  bmap_size geometry_400K
  = ceil_div (blocks_count (super_block geometry_400K)) (8 * 4096) /\
  imap_size geometry_400K
  = ceil_div (inodes_count (super_block geometry_400K)) (8 * 4096) /\
  8 * 4096 * (bmap_size geometry_400K - 1)
  < blocks_count (super_block geometry_400K)
  <= 8 * 4096 * bmap_size geometry_400K /\
  (1 <= blocks_count (super_block geometry_400K) ->
   1 <= bmap_size geometry_400K /\ 1 <= imap_size geometry_400K) /\
  (blocks_count (super_block geometry_400K) = 0 ->
   bmap_size geometry_400K = 0 /\ imap_size geometry_400K = 0) /\
  inode_table_size geometry_400K
  = inodes_count (super_block geometry_400K) / (4096 / HUST_INODE_SIZE hust) /\
  data_block_number (super_block geometry_400K)
  = 2 + bmap_size geometry_400K + imap_size geometry_400K
    + inode_table_size geometry_400K /\
  free_blocks (super_block geometry_400K)
  = (blocks_count (super_block geometry_400K)
     - data_block_number (super_block geometry_400K) - 1) mod 2 ^ 64 /\
  (data_block_number (super_block geometry_400K) + 1
   <= blocks_count (super_block geometry_400K) ->
   free_blocks (super_block geometry_400K)
   = blocks_count (super_block geometry_400K)
     - data_block_number (super_block geometry_400K) - 1) /\
  (forall r m',
      init_disk hust (quiet_env 409600) initial_machine = Done (r, m') ->
      same_layout (statics m') geometry_400K).
Proof.
  apply (init_disk_geometry_spec hust (quiet_env 409600) 409600 initial_machine).
  - header_constants_ok.
  - unfold off_t_size. lia.
  - reflexivity.
Defined.

(** C2.  With 4096-byte blocks, a 264-byte inode record and the two
    reserved leading blocks, [init_disk] on a device of exactly 409,600
    bytes returns 0 with [blocks_count = 100], [bmap_size = 1],
    [imap_size = 1], [inode_table_size = 6], [data_block_number = 10] and
    [free_blocks = 89]. *)
Theorem init_disk_400K K E m :
  HUST_BLOCKSIZE K = 4096 -> HUST_INODE_SIZE K = 264 -> RESERVE_BLOCKS K = 2 ->
  stat_size E = Some 409600 ->
  exists m',
    init_disk K E m = Done (0, m') /\
    blocks_count (super_block (statics m')) = 100 /\
    bmap_size (statics m') = 1 /\
    imap_size (statics m') = 1 /\
    inode_table_size (statics m') = 6 /\
    data_block_number (super_block (statics m')) = 10 /\
    free_blocks (super_block (statics m')) = 89.
Proof.
  intros HB HI HR Hstat.
  destruct K as [B R magic_num N F root]. cbn in HB, HI, HR.
  unfold HUST_INODE_SIZE in HI. cbn in HI.
  assert (N = 10) by lia. subst B R N.
  unfold init_disk, get_file_size. rewrite Hstat.
  destruct m as [st d].
  eexists. split; [vm_compute; reflexivity |].
  repeat split.
Qed.

(** C2, witness: the constants of the header and an image of 409,600
    bytes. *)
Lemma init_disk_400K_witness :
  exists m',
    init_disk hust (quiet_env 409600) initial_machine = Done (0, m') /\
    blocks_count (super_block (statics m')) = 100 /\
    bmap_size (statics m') = 1 /\
    imap_size (statics m') = 1 /\
    inode_table_size (statics m') = 6 /\
    data_block_number (super_block (statics m')) = 10 /\
    free_blocks (super_block (statics m')) = 89.
Proof.
  apply (init_disk_400K hust (quiet_env 409600) initial_machine); reflexivity.
Defined.

(** C3.  On a device of at least the minimum size (its [blocks_count]
    reaches [data_block_number + 1]), whenever [init_disk] returns 0 the
    block bitmap has exactly the bits 0 to [data_block_number] set, that is
    [data_block_number + 1] bits, and the inode bitmap has exactly the bits
    0 and 1 set, that is 2 bits.  And [init_disk] does return 0 there, as
    long as the [int] loop counter can reach [data_block_number + 1]. *)
Theorem bitmaps_after_init_disk K E S m :
  good_constants K -> off_t_size S -> stat_size E = Some S ->
  let gl := init_disk_geometry K S in
  let dbn := data_block_number (super_block gl) in
  dbn + 1 <= blocks_count (super_block gl) ->
  (forall m', init_disk K E m = Done (0, m') ->
     exists bm im,
       bmap (statics m') = Some bm /\ imap (statics m') = Some im /\
       data_block_number (super_block (statics m')) = dbn /\
       Z.of_nat (length bm) = bmap_size gl * HUST_BLOCKSIZE K /\
       Z.of_nat (length im) = imap_size gl * HUST_BLOCKSIZE K /\
       (forall i, 0 <= i < 8 * Z.of_nat (length bm) ->
                  get_bit bm i = true <-> i <= dbn) /\
       count_set_bits bm = dbn + 1 /\
       (forall i, 0 <= i < 8 * Z.of_nat (length im) ->
                  get_bit im i = true <-> i < 2) /\
       count_set_bits im = 2)
  /\ (dbn + 1 <= INT_MAX -> exists m', init_disk K E m = Done (0, m')).
Proof.
  intros HK HS Hstat. cbv zeta. intros Hmin.
  pose proof (block_size_bounds K HK) as [HB HQ].
  pose proof (blocks_count_bounds K HK S HS) as Hbc.
  pose proof (geometry_nonneg K HK S HS) as (Hbs & His & Hts & Hd & Heq & HbB).
  assert (Hcap : blocks_count (super_block (init_disk_geometry K S))
                 <= 8 * (bmap_size (init_disk_geometry K S) * HUST_BLOCKSIZE K)).
  { rewrite (init_disk_geometry_eq K HK S HS). cbn.
    pose proof (ceil_div_spec (S / HUST_BLOCKSIZE K) (8 * HUST_BLOCKSIZE K)
                  ltac:(lia) ltac:(lia)). lia. }
  assert (Hone : 1 <= S / HUST_BLOCKSIZE K).
  { assert (Hb : blocks_count (super_block (init_disk_geometry K S))
                 = S / HUST_BLOCKSIZE K)
      by (rewrite (init_disk_geometry_eq K HK S HS); reflexivity).
    lia. }
  destruct (init_disk_run K E HK S HS Hstat m Hone ltac:(lia)) as [Hok Hundef].
  split.
  - intros m' Hrun.
    destruct (Z.le_gt_cases
                (data_block_number (super_block (init_disk_geometry K S)) + 1)
                INT_MAX) as [Hint | Hint].
    + destruct (Hok Hint) as (bm & im & Hrun' & Hlbm & Hlim & Hbm & Him).
      rewrite Hrun' in Hrun. injection Hrun as <-.
      exists bm, im. cbn [statics with_imap with_bmap bmap imap super_block].
      assert (Hposim : 8 <= 8 * Z.of_nat (length im)).
      { assert (1 <= bmap_size (init_disk_geometry K S)).
        { rewrite (init_disk_geometry_eq K HK S HS). cbn.
          apply ceil_div_pos; lia. }
        nia. }
      split; [reflexivity |]. split; [reflexivity |]. split; [reflexivity |].
      split; [exact Hlbm |]. split; [exact Hlim |].
      split; [| split; [| split]].
      * intros i Hi. rewrite Hbm by lia.
        destruct (Z.leb_spec i (data_block_number
                                  (super_block (init_disk_geometry K S))));
          split; intros; (reflexivity || lia || discriminate).
      * apply count_set_bits_prefix; [lia |].
        intros i Hi. apply Hbm. lia.
      * intros i Hi. rewrite Him by lia.
        destruct (Z.ltb_spec i 2); split; intros;
          (reflexivity || lia || discriminate).
      * change 2 with (1 + 1). apply count_set_bits_prefix; [lia |].
        intros i Hi. rewrite Him by lia.
        destruct (Z.ltb_spec i 2), (Z.leb_spec i 1); (reflexivity || lia).
    + rewrite (Hundef ltac:(lia)) in Hrun. discriminate.
  - intros Hint. destruct (Hok Hint) as (bm & im & Hrun & _).
    eexists. exact Hrun.
Qed.

(** C3, witness: a 409,600-byte image. *)
Lemma bitmaps_after_init_disk_witness :
  (forall m', init_disk hust (quiet_env 409600) initial_machine = Done (0, m') ->
     exists bm im,
       bmap (statics m') = Some bm /\ imap (statics m') = Some im /\
       data_block_number (super_block (statics m')) = 10 /\
       Z.of_nat (length bm) = 1 * 4096 /\
       Z.of_nat (length im) = 1 * 4096 /\
       (forall i, 0 <= i < 8 * Z.of_nat (length bm) ->
                  get_bit bm i = true <-> i <= 10) /\
       count_set_bits bm = 10 + 1 /\
       (forall i, 0 <= i < 8 * Z.of_nat (length im) ->
                  get_bit im i = true <-> i < 2) /\
       count_set_bits im = 2)
  /\ (10 + 1 <= INT_MAX ->
      exists m', init_disk hust (quiet_env 409600) initial_machine = Done (0, m')).
Proof.
  apply (bitmaps_after_init_disk hust (quiet_env 409600) 409600 initial_machine).
  - header_constants_ok.
  - unfold off_t_size. lia.
  - reflexivity.
  - vm_compute. discriminate.
Defined.

(** C4, as stated, fails on an image of 16,384 bytes, one block below the
    minimum of five blocks: [init_disk] returns 0, [free_blocks] is
    [2^64 - 1], and [main] issues its nine writes and returns 1. *)
Lemma undersized_device_is_formatted :
  exists m1 mf,
    init_disk hust (quiet_env 16384) initial_machine = Done (0, m1) /\
    blocks_count (super_block (statics m1)) = 4 /\
    data_block_number (super_block (statics m1)) + 1 = 5 /\
    free_blocks (super_block (statics m1)) = 2 ^ 64 - 1 /\
    main hust (quiet_env 16384) 2 initial_machine = Done (1, mf) /\
    length (writes_of (trace (dev mf))) = 9%nat.
Proof.
  eexists. eexists.
  split; [vm_compute; reflexivity |].
  split; [reflexivity |]. split; [reflexivity |]. split; [reflexivity |].
  split; [vm_compute; reflexivity |].
  vm_compute. reflexivity.
Qed.

(** C4 (amended).  The program has no device-too-small check.  On a
    device with at least one block, whose block bitmap has a bit for block
    [data_block_number], and where no system call fails, [init_disk]
    returns 0 without touching the device and [main] goes on to issue its
    nine writes and returns 1, whether or not [blocks_count] reaches
    [data_block_number + 1].  [free_blocks] is
    [blocks_count - data_block_number - 1] modulo [2^64]: 0 at exactly the
    minimum size, and [2^64 - 1] one block below it. *)
Theorem no_device_size_check K E S :
  good_constants K -> off_t_size S -> all_succeed E S ->
  let gl := init_disk_geometry K S in
  let dbn := data_block_number (super_block gl) in
  let bc := blocks_count (super_block gl) in
  1 <= bc ->
  dbn < 8 * (bmap_size gl * HUST_BLOCKSIZE K) ->
  dbn + 1 <= INT_MAX ->
  dbn * HUST_BLOCKSIZE K < 2 ^ 63 ->
  exists m1 mf c3,
    init_disk K E initial_machine = Done (0, m1) /\
    trace (dev m1) = [] /\
    free_blocks (super_block (statics m1)) = (bc - dbn - 1) mod 2 ^ 64 /\
    (bc = dbn + 1 -> free_blocks (super_block (statics m1)) = 0) /\
    (bc = dbn -> free_blocks (super_block (statics m1)) = 2 ^ 64 - 1) /\
    stage_codes K E initial_machine = Done ([0; 0; c3; 0; 0; 0], mf) /\
    main K E 2 initial_machine = Done (1, mf) /\
    length (writes_of (trace (dev mf))) = 9%nat.
Proof.
  intros HK HS Hall. cbv zeta. intros Hone Hfit Hint Hoff.
  assert (Hb : blocks_count (super_block (init_disk_geometry K S))
               = S / HUST_BLOCKSIZE K)
    by (rewrite (init_disk_geometry_eq K HK S HS); reflexivity).
  rewrite Hb in Hone.
  destruct (stages_run K E S HK HS Hall Hone Hfit Hint Hoff initial_machine)
    as (bm & im & _ & _ & _ & _ & Hinit & Hrun).
  assert (Hfree : free_blocks (super_block (init_disk_geometry K S))
                  = (blocks_count (super_block (init_disk_geometry K S))
                     - data_block_number (super_block (init_disk_geometry K S)) - 1)
                    mod 2 ^ 64).
  { rewrite (init_disk_geometry_eq K HK S HS). reflexivity. }
  eexists. eexists. eexists.
  split; [exact Hinit |].
  cbn [statics dev with_imap with_bmap super_block initial_machine
       initial_world trace].
  split; [reflexivity |].
  split; [exact Hfree |].
  split. { intros Heq. rewrite Hfree, Heq.
           replace (_ + 1 - _ - 1) with 0 by lia. reflexivity. }
  split. { intros Heq. rewrite Hfree, Heq.
           replace (_ - _ - 1) with (-1) by lia. reflexivity. }
  split; [exact Hrun |].
  split.
  - rewrite main_runs_stages by (destruct Hall as (_ & _ & Hopen); exact Hopen).
    rewrite Hrun. reflexivity.
  - reflexivity.
Qed.

(** C4, witness: the image of 16,384 bytes. *)
Lemma no_device_size_check_witness :
  exists m1 mf c3,
    init_disk hust (quiet_env 16384) initial_machine = Done (0, m1) /\
    trace (dev m1) = [] /\
    free_blocks (super_block (statics m1)) = (4 - 4 - 1) mod 2 ^ 64 /\
    (4 = 4 + 1 -> free_blocks (super_block (statics m1)) = 0) /\
    (4 = 4 -> free_blocks (super_block (statics m1)) = 2 ^ 64 - 1) /\
    stage_codes hust (quiet_env 16384) initial_machine
    = Done ([0; 0; c3; 0; 0; 0], mf) /\
    main hust (quiet_env 16384) 2 initial_machine = Done (1, mf) /\
    length (writes_of (trace (dev mf))) = 9%nat.
Proof.
  apply (no_device_size_check hust (quiet_env 16384) 16384).
  - header_constants_ok.
  - unfold off_t_size. lia.
  - quiet_env_ok.
  - vm_compute. discriminate.
  - vm_compute. reflexivity.
  - vm_compute. discriminate.
  - vm_compute. reflexivity.
Defined.

(** C5 (the code at the failing input).  The bitmap of a 409,600-byte
    device has 32,768 bits.  [set_bmap(32769, 1)] does not return -1: the
    guard compares byte index 4096 with the byte length 4096 using [>], and
    the store goes to [bmap[4096]], one past the buffer.  The same holds up
    to bit 32,775; the error is returned from bit 32,776 on. *)
Theorem set_bmap_guard_off_by_one :
  8 * (bmap_size geometry_400K * HUST_BLOCKSIZE hust) = 32768 /\
  option_map (fun buf => Z.of_nat (length buf)) (bmap geometry_400K)
  = Some 4096 /\
  set_bmap hust 32769 1 (Build_machine geometry_400K initial_world) = Undef /\
  set_bmap hust 32775 1 (Build_machine geometry_400K initial_world) = Undef /\
  set_bmap hust 32776 1 (Build_machine geometry_400K initial_world)
  = Done (-1, Build_machine geometry_400K initial_world) /\
  ~ (exists m',
        set_bmap hust 32769 1 (Build_machine geometry_400K initial_world)
        = Done (-1, m')).
Proof.
  split; [reflexivity |].
  split; [vm_compute; reflexivity |].
  split; [vm_compute; reflexivity |].
  split; [vm_compute; reflexivity |].
  split; [vm_compute; reflexivity |].
  intros [m' H].
  assert (Hu : set_bmap hust 32769 1 (Build_machine geometry_400K initial_world)
               = Undef) by (vm_compute; reflexivity).
  rewrite Hu in H. discriminate H.
Qed.

(** C6 (the code at the failing inputs).  When the first [write], of the
    dummy block, fails with -1, [write_dummy] returns -1; [main] still calls
    the four writers after it, which issue eight more writes, and returns 1
    as it does for a run without failure.  When [stat] fails, [init_disk]
    returns -1; [main] still calls the five writers, which issue nine
    writes, and returns 1. *)
Theorem main_ignores_failed_write :
  (exists mf rest,
      stage_codes hust (first_write_fails 409600) initial_machine
      = Done ([0; -1; 0; 0; 0; 0], mf) /\
      main hust (first_write_fails 409600) 2 initial_machine = Done (1, mf) /\
      trace (dev mf) = EWrite 0 (PZeros 4096) 4096 (-1) :: rest /\
      length (writes_of rest) = 8%nat) /\
  (exists mf,
      stage_codes hust stat_fails initial_machine
      = Done ([-1; 0; 0; 0; 0; 0], mf) /\
      main hust stat_fails 2 initial_machine = Done (1, mf) /\
      length (writes_of (trace (dev mf))) = 9%nat).
Proof.
  split.
  - eexists. eexists.
    split; [vm_compute; reflexivity |].
    split; [vm_compute; reflexivity |].
    split; [cbn [dev trace]; reflexivity |].
    vm_compute. reflexivity.
  - eexists.
    split; [vm_compute; reflexivity |].
    split; [vm_compute; reflexivity |].
    vm_compute. reflexivity.
Qed.

(** C7.  In a run where nothing fails, with 4096-byte blocks and the two
    reserved leading blocks, on a device of at least the minimum size, the
    system calls are, in this order: a block of zeros at offset 0; the
    superblock structure, exactly one block long, at block 1; the block
    bitmap, [bmap_size] blocks, at block [bmap_block = 2], where the
    superblock ended; the inode bitmap, [imap_size] blocks, at block
    [imap_block = bmap_block + bmap_size]; the root inode and the file
    inode one after the other at block
    [inode_table_block = imap_block + imap_size]; the
    [lseek(fd, 0L, SEEK_CUR)] that reads the offset, just after the two
    inodes; a seek to [data_block_number * block_size]; and the three
    directory records from there. *)
Theorem write_order_and_positions K E S :
  good_constants K ->
  HUST_BLOCKSIZE K = 4096 -> RESERVE_BLOCKS K = 2 ->
  off_t_size S -> all_succeed E S ->
  let gl := init_disk_geometry K S in
  let sb := super_block gl in
  let dbn := data_block_number sb in
  let B := HUST_BLOCKSIZE K in
  let isz := HUST_INODE_SIZE K in
  let rsz := sizeof_dir_record K in
  dbn + 1 <= blocks_count sb ->
  dbn + 1 <= INT_MAX ->
  exists mf bm im,
    main K E 2 initial_machine = Done (1, mf) /\
    stage_codes K E initial_machine = Done ([0; 0; 0; 0; 0; 0], mf) /\
    super_block (statics mf) = sb /\
    bmap (statics mf) = Some bm /\ imap (statics mf) = Some im /\
    Z.of_nat (length bm) = bmap_size gl * B /\
    Z.of_nat (length im) = imap_size gl * B /\
    sizeof_super_block = B /\
    bmap_block sb = 2 /\
    imap_block sb = bmap_block sb + bmap_size gl /\
    inode_table_block sb = imap_block sb + imap_size gl /\
    trace (dev mf) =
    [EWrite 0 (PZeros B) B B;
     EWrite (1 * B) (PSuper sb) B B;
     EWrite (bmap_block sb * B) (PBuffer (Some bm))
       (bmap_size gl * B) (bmap_size gl * B);
     EWrite (imap_block sb * B) (PBuffer (Some im))
       (imap_size gl * B) (imap_size gl * B);
     EWrite (inode_table_block sb * B)
       (PInode (root_dir_inode K E dbn (time E 0))) isz isz;
     EWrite (inode_table_block sb * B + isz)
       (PInode (onefile_inode K E (time E 1))) isz isz;
     ESeekCur (inode_table_block sb * B + 2 * isz)
       (lseek_cur_ret E (inode_table_block sb * B + 2 * isz));
     ESeek (dbn * B) (lseek_ret E (dbn * B));
     EWrite (dbn * B)
       (PDirRecord {| filename := "."; dir_inode_no := HUST_ROOT_INODE_NUM K |})
       rsz rsz;
     EWrite (dbn * B + rsz)
       (PDirRecord {| filename := ".."; dir_inode_no := HUST_ROOT_INODE_NUM K |})
       rsz rsz;
     EWrite (dbn * B + 2 * rsz)
       (PDirRecord {| filename := "file"; dir_inode_no := 1 |})
       rsz rsz].
Proof.
  intros HK HB HR HS Hall. cbv zeta. intros Hmin Hint.
  destruct (successful_run K E S HK HS Hall Hmin Hint)
    as (bm & im & Hlbm & Hlim & _ & _ & Hcodes & Hmain).
  cbv zeta in Hcodes, Hmain.
  assert (Hssb : sizeof_super_block = HUST_BLOCKSIZE K) by (rewrite HB; reflexivity).
  assert (Hbb : bmap_block (super_block (init_disk_geometry K S)) = 2).
  { rewrite (init_disk_geometry_eq K HK S HS). exact HR. }
  assert (Hib : imap_block (super_block (init_disk_geometry K S))
                = bmap_block (super_block (init_disk_geometry K S))
                  + bmap_size (init_disk_geometry K S)).
  { rewrite (init_disk_geometry_eq K HK S HS). reflexivity. }
  assert (Htb : inode_table_block (super_block (init_disk_geometry K S))
                = imap_block (super_block (init_disk_geometry K S))
                  + imap_size (init_disk_geometry K S)).
  { rewrite (init_disk_geometry_eq K HK S HS). reflexivity. }
  rewrite Hssb, Z.eqb_refl in Hcodes. rewrite Hssb in Hmain.
  eexists. exists bm, im.
  split; [exact Hmain |]. split; [exact Hcodes |].
  cbn [statics dev trace with_imap with_bmap super_block bmap imap].
  split; [reflexivity |]. split; [reflexivity |]. split; [reflexivity |].
  split; [exact Hlbm |]. split; [exact Hlim |]. split; [exact Hssb |].
  split; [exact Hbb |]. split; [exact Hib |]. split; [exact Htb |].
  rewrite Htb, Hib, Hbb.
  repeat (f_equal; try lia).
Qed.

(** C7, witness: a 409,600-byte image, the constants of the header. *)
Lemma write_order_and_positions_witness :
  exists mf bm im,
    main hust (quiet_env 409600) 2 initial_machine = Done (1, mf) /\
    stage_codes hust (quiet_env 409600) initial_machine
    = Done ([0; 0; 0; 0; 0; 0], mf) /\
    super_block (statics mf) = super_block geometry_400K /\
    bmap (statics mf) = Some bm /\ imap (statics mf) = Some im /\
    Z.of_nat (length bm) = bmap_size geometry_400K * 4096 /\
    Z.of_nat (length im) = imap_size geometry_400K * 4096 /\
    sizeof_super_block = 4096 /\
    bmap_block (super_block geometry_400K) = 2 /\
    imap_block (super_block geometry_400K)
    = bmap_block (super_block geometry_400K) + bmap_size geometry_400K /\
    inode_table_block (super_block geometry_400K)
    = imap_block (super_block geometry_400K) + imap_size geometry_400K /\
    trace (dev mf) =
    [EWrite 0 (PZeros 4096) 4096 4096;
     EWrite (1 * 4096) (PSuper (super_block geometry_400K)) 4096 4096;
     EWrite (2 * 4096) (PBuffer (Some bm)) (1 * 4096) (1 * 4096);
     EWrite (3 * 4096) (PBuffer (Some im)) (1 * 4096) (1 * 4096);
     EWrite (4 * 4096)
       (PInode (root_dir_inode hust (quiet_env 409600) 10 1700000000)) 264 264;
     EWrite (4 * 4096 + 264)
       (PInode (onefile_inode hust (quiet_env 409600) 1700000001)) 264 264;
     ESeekCur (4 * 4096 + 2 * 264) (4 * 4096 + 2 * 264);
     ESeek (10 * 4096) (10 * 4096);
     EWrite (10 * 4096)
       (PDirRecord {| filename := "."; dir_inode_no := 0 |}) 264 264;
     EWrite (10 * 4096 + 264)
       (PDirRecord {| filename := ".."; dir_inode_no := 0 |}) 264 264;
     EWrite (10 * 4096 + 2 * 264)
       (PDirRecord {| filename := "file"; dir_inode_no := 1 |}) 264 264].
Proof.
  apply (write_order_and_positions hust (quiet_env 409600) 409600).
  - header_constants_ok.
  - reflexivity.
  - reflexivity.
  - unfold off_t_size. lia.
  - quiet_env_ok.
  - vm_compute. discriminate.
  - vm_compute. discriminate.
Defined.

(** C8.  In a run where nothing fails, on a device of at least the minimum
    size, exactly two inode records are handed to [write], in two
    consecutive calls: the root directory inode at the offset where the
    inode bitmap ended and the file inode right after it, each call of the
    size of one record and each storing the whole record; no call before or
    after them writes an inode.  With 4096-byte blocks and the two reserved
    leading blocks that offset is the start of block [inode_table_block],
    so the two records are slots 0 and 1 of the inode table.  The root
    inode has mode [S_IFDIR], the root inode number, 1 block, [block[0]]
    equal to [data_block_number], 3 children and 2 links; the file inode
    has mode [S_IFREG], inode number 1, 0 blocks, size 0 and 1 link.  Both
    carry the caller's uid and gid (as the 32-bit values they are, read as
    [int32_t]) and each has its three timestamps equal to the value [time]
    returned when the record was filled in. *)
Theorem inode_records K E S :
  good_constants K -> off_t_size S -> all_succeed E S ->
  let gl := init_disk_geometry K S in
  let sb := super_block gl in
  let dbn := data_block_number sb in
  let B := HUST_BLOCKSIZE K in
  let isz := HUST_INODE_SIZE K in
  let table := B + sizeof_super_block + bmap_size gl * B + imap_size gl * B in
  dbn + 1 <= blocks_count sb ->
  dbn + 1 <= INT_MAX ->
  exists mf root file before after,
    main K E 2 initial_machine = Done (1, mf) /\
    inodes_written (trace (dev mf)) = [root; file] /\
    trace (dev mf)
    = before ++
      [EWrite table (PInode root) isz isz;
       EWrite (table + isz) (PInode file) isz isz] ++
      after /\
    inodes_written before = [] /\ inodes_written after = [] /\
    0 < isz /\
    (B = 4096 -> RESERVE_BLOCKS K = 2 -> table = inode_table_block sb * B) /\
    (mode root = S_IFDIR /\
     inode_no root = HUST_ROOT_INODE_NUM K /\
     blocks root = 1 /\
     block root !! 0%nat = Some (Some dbn) /\
     dir_children_count root = 3 /\
     i_nlink root = 2 /\
     i_uid root mod 2 ^ 32 = getuid E mod 2 ^ 32 /\
     i_gid root mod 2 ^ 32 = getgid E mod 2 ^ 32 /\
     (0 <= getuid E < 2 ^ 31 -> i_uid root = getuid E) /\
     (0 <= getgid E < 2 ^ 31 -> i_gid root = getgid E) /\
     i_atime root = i64 (time E 0) /\
     i_mtime root = i64 (time E 0) /\
     i_ctime root = i64 (time E 0) /\
     (- 2 ^ 63 <= time E 0 < 2 ^ 63 -> i_atime root = time E 0)) /\
    (mode file = S_IFREG /\
     inode_no file = 1 /\
     blocks file = 0 /\
     file_size file = 0 /\
     i_nlink file = 1 /\
     i_uid file = i_uid root /\
     i_gid file = i_gid root /\
     i_atime file = i64 (time E 1) /\
     i_mtime file = i64 (time E 1) /\
     i_ctime file = i64 (time E 1) /\
     (- 2 ^ 63 <= time E 1 < 2 ^ 63 -> i_atime file = time E 1)).
Proof.
  intros HK HS Hall. cbv zeta. intros Hmin Hint.
  destruct (successful_run K E S HK HS Hall Hmin Hint)
    as (bm & im & _ & _ & _ & _ & _ & Hmain).
  cbv zeta in Hmain.
  pose proof (record_sizes K HK) as [Hisz _].
  match type of Hmain with
  | _ = Done (_, ?m) =>
      exists m; eexists; eexists;
      exists (firstn 4 (trace (dev m))), (skipn 6 (trace (dev m)))
  end.
  split; [exact Hmain |].
  cbn [dev trace firstn skipn app].
  split; [reflexivity |].
  split; [reflexivity |].
  split; [reflexivity |].
  split; [reflexivity |].
  split; [lia |].
  split.
  { intros HB HR.
    rewrite (init_disk_geometry_eq K HK S HS).
    cbn [super_block inode_table_block bmap_size imap_size].
    rewrite HR, HB. unfold sizeof_super_block. lia. }
  cbn [root_dir_inode onefile_inode mode inode_no blocks block file_size
       dir_children_count i_uid i_gid i_nlink i_atime i_mtime i_ctime].
  split.
  - split; [reflexivity |]. split; [reflexivity |]. split; [reflexivity |].
    split; [reflexivity |]. split; [reflexivity |]. split; [reflexivity |].
    split. { unfold i32. rewrite to_signed_mod by lia. apply Z.mod_mod. lia. }
    split. { unfold i32. rewrite to_signed_mod by lia. apply Z.mod_mod. lia. }
    split. { intros Hu. rewrite Z.mod_small by lia.
             apply to_signed_id; lia. }
    split. { intros Hg. rewrite Z.mod_small by lia.
             apply to_signed_id; lia. }
    split; [reflexivity |]. split; [reflexivity |]. split; [reflexivity |].
    intros Ht. apply to_signed_id; lia.
  - split; [reflexivity |]. split; [reflexivity |]. split; [reflexivity |].
    split; [reflexivity |]. split; [reflexivity |]. split; [reflexivity |].
    split; [reflexivity |].
    split; [reflexivity |]. split; [reflexivity |]. split; [reflexivity |].
    intros Ht. apply to_signed_id; lia.
Qed.

(** C8, witness: a 409,600-byte image formatted by uid 1000, gid 100: the
    two records at bytes 16,384 and 16,648, the first two slots of the
    table at block 4. *)
Lemma inode_records_witness :
  exists mf root file before after,
    main hust (quiet_env 409600) 2 initial_machine = Done (1, mf) /\
    inodes_written (trace (dev mf)) = [root; file] /\
    trace (dev mf)
    = before ++
      [EWrite (4096 + 4096 + 1 * 4096 + 1 * 4096) (PInode root) 264 264;
       EWrite (4096 + 4096 + 1 * 4096 + 1 * 4096 + 264) (PInode file) 264 264] ++
      after /\
    inodes_written before = [] /\ inodes_written after = [] /\
    0 < 264 /\
    (4096 = 4096 -> 2 = 2 ->
     4096 + 4096 + 1 * 4096 + 1 * 4096
     = inode_table_block (super_block geometry_400K) * 4096) /\
    (mode root = S_IFDIR /\
     inode_no root = 0 /\
     blocks root = 1 /\
     block root !! 0%nat = Some (Some 10) /\
     dir_children_count root = 3 /\
     i_nlink root = 2 /\
     i_uid root mod 2 ^ 32 = 1000 mod 2 ^ 32 /\
     i_gid root mod 2 ^ 32 = 100 mod 2 ^ 32 /\
     (0 <= 1000 < 2 ^ 31 -> i_uid root = 1000) /\
     (0 <= 100 < 2 ^ 31 -> i_gid root = 100) /\
     i_atime root = i64 1700000000 /\
     i_mtime root = i64 1700000000 /\
     i_ctime root = i64 1700000000 /\
     (- 2 ^ 63 <= 1700000000 < 2 ^ 63 -> i_atime root = 1700000000)) /\
    (mode file = S_IFREG /\
     inode_no file = 1 /\
     blocks file = 0 /\
     file_size file = 0 /\
     i_nlink file = 1 /\
     i_uid file = i_uid root /\
     i_gid file = i_gid root /\
     i_atime file = i64 1700000001 /\
     i_mtime file = i64 1700000001 /\
     i_ctime file = i64 1700000001 /\
     (- 2 ^ 63 <= 1700000001 < 2 ^ 63 -> i_atime file = 1700000001)).
Proof.
  apply (inode_records hust (quiet_env 409600) 409600).
  - header_constants_ok.
  - unfold off_t_size. lia.
  - quiet_env_ok.
  - vm_compute. discriminate.
  - vm_compute. discriminate.
Defined.

(** C9.  In a run where nothing fails, with 4096-byte blocks and the two
    reserved leading blocks, on a device of at least the minimum size, the
    last four system calls are the seek to the root directory's block and
    three writes of one directory record each, packed from the start of the
    block: ["."] and [".."] with the root inode number, then ["file"] with
    inode number 1.  No other directory record is written, and no write of
    the run stores a byte of that block after the three records, provided
    the two inode records end before the end of the three directory records
    (they start in the root directory's block when the inode table has no
    block). *)
Theorem root_directory_block K E S :
  good_constants K ->
  HUST_BLOCKSIZE K = 4096 -> RESERVE_BLOCKS K = 2 ->
  off_t_size S -> all_succeed E S ->
  let gl := init_disk_geometry K S in
  let sb := super_block gl in
  let dbn := data_block_number sb in
  let B := HUST_BLOCKSIZE K in
  let rsz := sizeof_dir_record K in
  dbn + 1 <= blocks_count sb ->
  dbn + 1 <= INT_MAX ->
  inode_table_block sb * B + 2 * HUST_INODE_SIZE K <= dbn * B + 3 * rsz ->
  exists mf before seek_ret,
    main K E 2 initial_machine = Done (1, mf) /\
    trace (dev mf) =
    before ++
    [ESeek (dbn * B) seek_ret;
     EWrite (dbn * B)
       (PDirRecord {| filename := "."; dir_inode_no := HUST_ROOT_INODE_NUM K |})
       rsz rsz;
     EWrite (dbn * B + rsz)
       (PDirRecord {| filename := ".."; dir_inode_no := HUST_ROOT_INODE_NUM K |})
       rsz rsz;
     EWrite (dbn * B + 2 * rsz)
       (PDirRecord {| filename := "file"; dir_inode_no := 1 |})
       rsz rsz] /\
    dir_records_written before = [] /\
    (forall e lo hi,
        e ∈ trace (dev mf) -> bytes_stored e = Some (lo, hi) ->
        hi <= dbn * B + 3 * rsz \/ (dbn + 1) * B <= lo).
Proof.
  intros HK HB HR HS Hall. cbv zeta. intros Hmin Hint Hclear.
  destruct (successful_run K E S HK HS Hall Hmin Hint)
    as (bm & im & Hlbm & Hlim & _ & _ & _ & Hmain).
  cbv zeta in Hmain.
  pose proof (geometry_nonneg K HK S HS) as (Hbs & His & Hts & Hd & Heq & HbB).
  pose proof (record_sizes K HK) as [Hisz Hrsz].
  assert (Htb : inode_table_block (super_block (init_disk_geometry K S))
                = 2 + bmap_size (init_disk_geometry K S)
                  + imap_size (init_disk_geometry K S)).
  { rewrite (init_disk_geometry_eq K HK S HS). cbn. rewrite HR. reflexivity. }
  assert (Hdb : data_block_number (super_block (init_disk_geometry K S))
                = 2 + bmap_size (init_disk_geometry K S)
                  + imap_size (init_disk_geometry K S)
                  + inode_table_size (init_disk_geometry K S)).
  { rewrite (init_disk_geometry_eq K HK S HS). cbn. rewrite HR. reflexivity. }
  rewrite Htb in Hclear.
  remember (bmap_size (init_disk_geometry K S)) as nb eqn:Hnb.
  remember (imap_size (init_disk_geometry K S)) as ni eqn:Hni.
  remember (inode_table_size (init_disk_geometry K S)) as nt eqn:Hnt.
  remember (data_block_number (super_block (init_disk_geometry K S))) as nd eqn:Hnd.
  match type of Hmain with
  | _ = Done (_, ?m) =>
      exists m, (firstn 7 (trace (dev m))), (lseek_ret E (nd * HUST_BLOCKSIZE K))
  end.
  split; [exact Hmain |].
  cbn [dev trace firstn app].
  split.
  { assert (Htwice : forall x y, x + 2 * y = x + y + y) by (intros; lia).
    rewrite Htwice. reflexivity. }
  split; [reflexivity |].
  intros e lo hi Hin Hst.
  unfold sizeof_super_block in Hin.
  repeat (apply elem_of_cons in Hin as [-> | Hin]);
    [.. | apply elem_of_nil in Hin; contradiction];
    cbn [bytes_stored] in Hst;
    try discriminate Hst;
    match type of Hst with
    | (if ?c then _ else _) = _ => destruct c; [| discriminate Hst]
    end;
    injection Hst as <- <-;
    rewrite ?HB in *; lia.
Qed.

(** C9, witness: a 409,600-byte image, the constants of the header. *)
Lemma root_directory_block_witness :
  exists mf before seek_ret,
    main hust (quiet_env 409600) 2 initial_machine = Done (1, mf) /\
    trace (dev mf) =
    before ++
    [ESeek (10 * 4096) seek_ret;
     EWrite (10 * 4096)
       (PDirRecord {| filename := "."; dir_inode_no := 0 |}) 264 264;
     EWrite (10 * 4096 + 264)
       (PDirRecord {| filename := ".."; dir_inode_no := 0 |}) 264 264;
     EWrite (10 * 4096 + 2 * 264)
       (PDirRecord {| filename := "file"; dir_inode_no := 1 |}) 264 264] /\
    dir_records_written before = [] /\
    (forall e lo hi,
        e ∈ trace (dev mf) -> bytes_stored e = Some (lo, hi) ->
        hi <= 10 * 4096 + 3 * 264 \/ (10 + 1) * 4096 <= lo).
Proof.
  apply (root_directory_block hust (quiet_env 409600) 409600).
  - header_constants_ok.
  - reflexivity.
  - reflexivity.
  - unfold off_t_size. lia.
  - quiet_env_ok.
  - vm_compute. discriminate.
  - vm_compute. discriminate.
  - vm_compute. discriminate.
Defined.

(** C10.  Called with one argument on a device that opens, [main] returns
    1 whenever its six stages return at all, and so in particular when
    every one of them returns 0: the returned variable is set to 1 before
    [init_disk] is called and is not assigned again. *)
Theorem main_returns_one K E m codes mf :
  open_ret E <> -1 ->
  stage_codes K E m = Done (codes, mf) ->
  main K E 2 m = Done (1, mf).
Proof.
  intros Hopen Hrun.
  rewrite (main_runs_stages K E m Hopen), Hrun. reflexivity.
Qed.

(** C10, witness: the run on a 409,600-byte image in which the six stages
    return 0. *)
Lemma main_returns_one_witness :
  exists mf,
    stage_codes hust (quiet_env 409600) initial_machine
    = Done ([0; 0; 0; 0; 0; 0], mf) /\
    main hust (quiet_env 409600) 2 initial_machine = Done (1, mf).
Proof.
  eexists. split.
  - vm_compute. reflexivity.
  - apply (main_returns_one hust (quiet_env 409600) initial_machine
             [0; 0; 0; 0; 0; 0]).
    + cbn. lia.
    + vm_compute. reflexivity.
Defined.

(** * Further properties of the code *)

(** ** [set_bmap] and [set_imap] on their own *)

Lemma byte_set_then_clear b k :
  0 <= b < 2 ^ 8 -> 0 <= k < 8 -> Z.testbit b k = false ->
  u8 (Z.land (u8 (Z.lor b (Z.shiftl 1 k))) (Z.lnot (Z.shiftl 1 k))) = b.
Proof.
  intros Hb Hk Hclear. apply Z.bits_inj'. intros n Hn.
  destruct (Z.lt_ge_cases n 8) as [Hlow | Hhigh].
  - rewrite testbit_clear_bit, testbit_set_bit by lia.
    destruct (Z.eqb_spec n k) as [-> | _].
    + rewrite Hclear. reflexivity.
    + rewrite orb_false_r. apply andb_true_r.
  - unfold u8 at 1. rewrite Z.mod_pow2_bits_high by lia.
    symmetry. apply Z.bits_above_log2; [lia |].
    destruct (Z.eq_dec b 0) as [-> | Hnz]; [cbn; lia |].
    assert (2 ^ 8 <= 2 ^ n) by (apply Z.pow_le_mono_r; lia).
    apply Z.log2_lt_pow2; lia.
Qed.


(** X1.  On an index the bitmap has, [set_bmap] returns 0, makes bit [idx]
    equal to the truth value of [value] and changes no other bit, nor the
    length of the buffer, the geometry or the device. *)
Theorem set_bmap_changes_one_bit K m buf idx value :
  bmap (statics m) = Some buf ->
  Z.of_nat (length buf) <= u64 (bmap_size (statics m) * HUST_BLOCKSIZE K) ->
  0 <= idx < 8 * Z.of_nat (length buf) ->
  exists buf',
    set_bmap K idx value m
    = Done (0, Build_machine (with_bmap (Some buf') (statics m)) (dev m)) /\
    length buf' = length buf /\
    forall i, 0 <= i ->
      get_bit buf' i = if i =? idx then negb (value =? 0) else get_bit buf i.
Proof.
  intros Hbuf Hlen Hidx.
  exact (set_bmap_within_capacity K m buf idx value Hbuf Hlen Hidx).
Qed.

(** X1, witness: clearing bit 10 of the bitmap of a formatted 409,600-byte
    image. *)
Lemma set_bmap_changes_one_bit_witness :
  exists buf',
    set_bmap hust 10 0 (machine_after_init 409600)
    = Done (0, Build_machine
                 (with_bmap (Some buf') (statics (machine_after_init 409600)))
                 (dev (machine_after_init 409600))) /\
    length buf' = length (255 :: 7 :: replicate 4094 0) /\
    forall i, 0 <= i ->
      get_bit buf' i
      = if i =? 10 then negb (0 =? 0)
        else get_bit (255 :: 7 :: replicate 4094 0) i.
Proof.
  apply (set_bmap_changes_one_bit hust (machine_after_init 409600)
           (255 :: 7 :: replicate 4094 0) 10 0).
  - vm_compute. reflexivity.
  - vm_compute. discriminate.
  - vm_compute. split; [discriminate | reflexivity].
Defined.

(** X2.  For a bitmap as long as the statics say, the outcome of [set_bmap]
    depends on the index alone: it returns 0 exactly on the indices of the
    buffer, it returns -1 (leaving everything as it was) exactly from eight
    bits past the end on, and on the eight indices in between the guard
    lets the store through to the byte after the buffer. *)
Theorem set_bmap_outcome_by_index K m buf idx value :
  bmap (statics m) = Some buf ->
  Z.of_nat (length buf) = u64 (bmap_size (statics m) * HUST_BLOCKSIZE K) ->
  0 <= idx ->
  ((exists m', set_bmap K idx value m = Done (0, m'))
   <-> idx < 8 * Z.of_nat (length buf)) /\
  (set_bmap K idx value m = Undef
   <-> 8 * Z.of_nat (length buf) <= idx < 8 * Z.of_nat (length buf) + 8) /\
  (set_bmap K idx value m = Done (-1, m)
   <-> 8 * Z.of_nat (length buf) + 8 <= idx).
Proof.
  intros Hbuf Hlen Hidx.
  assert (Hcases : idx < 8 * Z.of_nat (length buf) \/
                   8 * Z.of_nat (length buf) <= idx < 8 * Z.of_nat (length buf) + 8 \/
                   8 * Z.of_nat (length buf) + 8 <= idx) by lia.
  destruct Hcases as [Hin | [Hedge | Hout]].
  - destruct (set_bmap_within_capacity K m buf idx value Hbuf ltac:(lia) ltac:(lia))
      as (buf' & Hrun & _).
    rewrite Hrun. split; [| split].
    + split; [intros _; exact Hin | intros _; eexists; reflexivity].
    + split; [discriminate | lia].
    + split; [discriminate | lia].
  - rewrite (set_bmap_past_the_end K m buf idx value Hbuf Hlen Hedge).
    split; [| split].
    + split; [intros [m' H]; discriminate H | lia].
    + split; [intros _; exact Hedge | reflexivity].
    + split; [discriminate | lia].
  - assert (Hfail : set_bmap K idx value m = Done (-1, m)).
    { unfold set_bmap. rewrite Hbuf, <- Hlen.
      assert (Z.of_nat (length buf) + 1 <= idx / 8).
      { apply Z.div_le_lower_bound; lia. }
      destruct (Z.ltb_spec (Z.of_nat (length buf)) (idx / 8)); [reflexivity | lia]. }
    rewrite Hfail. split; [| split].
    + split; [intros [m' H]; discriminate H | lia].
    + split; [discriminate | lia].
    + split; [intros _; exact Hout | reflexivity].
Qed.

(** X2, witness: bit 32,768 of the 32,768-bit bitmap of a formatted
    409,600-byte image. *)
Lemma set_bmap_outcome_by_index_witness :
  ((exists m', set_bmap hust 32768 1 (machine_after_init 409600) = Done (0, m'))
   <-> 32768 < 8 * Z.of_nat (length (255 :: 7 :: replicate 4094 0))) /\
  (set_bmap hust 32768 1 (machine_after_init 409600) = Undef
   <-> 8 * Z.of_nat (length (255 :: 7 :: replicate 4094 0)) <= 32768
       < 8 * Z.of_nat (length (255 :: 7 :: replicate 4094 0)) + 8) /\
  (set_bmap hust 32768 1 (machine_after_init 409600)
   = Done (-1, machine_after_init 409600)
   <-> 8 * Z.of_nat (length (255 :: 7 :: replicate 4094 0)) + 8 <= 32768).
Proof.
  apply (set_bmap_outcome_by_index hust (machine_after_init 409600)
           (255 :: 7 :: replicate 4094 0) 32768 1).
  - vm_compute. reflexivity.
  - vm_compute. reflexivity.
  - lia.
Defined.

(** X3.  Setting a clear bit and then clearing it again gives back the
    bitmap byte for byte, on a buffer of bytes. *)
Theorem set_then_clear_restores K m buf idx :
  bmap (statics m) = Some buf ->
  Z.of_nat (length buf) <= u64 (bmap_size (statics m) * HUST_BLOCKSIZE K) ->
  0 <= idx < 8 * Z.of_nat (length buf) ->
  Forall (fun b => 0 <= b < 2 ^ 8) buf ->
  get_bit buf idx = false ->
  exists m1,
    set_bmap K idx 1 m = Done (0, m1) /\
    bmap (statics m1) <> Some buf /\
    set_bmap K idx 0 m1 = Done (0, m).
Proof.
  intros Hbuf Hlen Hidx Hbytes Hclear.
  destruct (byte_in_range buf idx Hidx) as [b Hb].
  pose proof (Forall_lookup_1 _ _ _ _ Hbytes Hb) as Hrange. cbn beta in Hrange.
  pose proof (Z.mod_pos_bound idx 8 ltac:(lia)) as Hoff.
  assert (Hbit : Z.testbit b (idx mod 8) = false).
  { unfold get_bit in Hclear. rewrite Hb in Hclear. exact Hclear. }
  apply lookup_lt_Some in Hb as Hlt.
  eexists. split; [apply (set_bmap_stores K m buf idx b Hbuf ltac:(lia) Hb Hlen) |].
  split.
  - cbn [statics with_bmap bmap]. intros Heq. injection Heq as Heq.
    assert (Hget : get_bit buf idx = true).
    { rewrite <- Heq at 1.
      rewrite get_bit_insert_set by (lia || assumption).
      rewrite Z.eqb_refl. apply orb_true_r. }
    congruence.
  - unfold set_bmap. cbn [statics dev with_bmap bmap bmap_size].
    pose proof (Z.div_pos idx 8 ltac:(lia) ltac:(lia)).
    destruct (Z.ltb_spec (u64 (bmap_size (statics m) * HUST_BLOCKSIZE K)) (idx / 8));
      [lia |].
    rewrite list_lookup_insert_eq by exact Hlt.
    change (0 =? 0) with true. cbv iota.
    rewrite list_insert_insert_eq, byte_set_then_clear by assumption.
    rewrite list_insert_id by exact Hb.
    destruct m as [st d]. cbn [statics dev] in *.
    destruct st. cbn in Hbuf. subst. reflexivity.
Qed.

(** X3, witness: bit 11, the first free block, of the bitmap of a formatted
    409,600-byte image. *)
Lemma set_then_clear_restores_witness :
  exists m1,
    set_bmap hust 11 1 (machine_after_init 409600) = Done (0, m1) /\
    bmap (statics m1) <> Some (255 :: 7 :: replicate 4094 0) /\
    set_bmap hust 11 0 m1 = Done (0, machine_after_init 409600).
Proof.
  apply (set_then_clear_restores hust (machine_after_init 409600)
           (255 :: 7 :: replicate 4094 0) 11).
  - vm_compute. reflexivity.
  - vm_compute. discriminate.
  - vm_compute. split; [discriminate | reflexivity].
  - apply Forall_cons. split; [lia |].
    apply Forall_cons. split; [lia |].
    apply Forall_replicate. lia.
  - vm_compute. reflexivity.
Defined.



(** ** [init_disk] at its edges *)

(** After a successful [stat], [init_disk] is the marking loop on the fresh
    geometry, followed by [set_imap]. *)
Lemma init_disk_after_stat K E S m :
  off_t_size S -> stat_size E = Some S ->
  init_disk K E m
  = match mark_used K
            (Z.to_nat (u64 (data_block_number
                              (super_block (init_disk_geometry K S)) + 1)))
            0 (Build_machine (init_disk_geometry K S) (dev m)) with
    | Done (r, m') => (if r =? 0 then set_imap ;;; ret 0 else ret (-1)) m'
    | Undef => Undef
    end.
Proof.
  intros HS Hstat.
  unfold init_disk, bind, get_globals, put_globals, get_file_size.
  rewrite Hstat. cbn [statics dev].
  rewrite (u64_small S) by (unfold off_t_size in HS; lia).
  rewrite u64_minus_one.
  destruct (Z.eqb_spec S (2 ^ 64 - 1)) as [Hbad | _];
    [unfold off_t_size in HS; lia |].
  reflexivity.
Qed.

(** The loop asked to go past the last bit of the buffer never gets to the
    error return: it stores past the end first. *)
Lemma mark_used_overruns K n : forall idx m buf,
  bmap (statics m) = Some buf ->
  Z.of_nat (length buf) = u64 (bmap_size (statics m) * HUST_BLOCKSIZE K) ->
  0 <= idx <= 8 * Z.of_nat (length buf) ->
  8 * Z.of_nat (length buf) < idx + Z.of_nat n ->
  mark_used K n idx m = Undef.
Proof.
  induction n as [| n IH]; intros idx m buf Hbuf Hlen Hidx Hover; [lia |].
  cbn [mark_used]. unfold bind at 1.
  destruct (Z.eq_dec idx (8 * Z.of_nat (length buf))) as [Hend | Hin].
  - rewrite (set_bmap_past_the_end K m buf idx 1 Hbuf Hlen) by lia. reflexivity.
  - destruct (byte_in_range buf idx ltac:(lia)) as [b Hb].
    rewrite (set_bmap_stores K m buf idx b Hbuf ltac:(lia) Hb ltac:(lia)).
    change (0 =? 0) with true. cbv iota.
    destruct (idx =? INT_MAX); [reflexivity |].
    apply (IH (idx + 1) _
              (<[Z.to_nat (idx / 8) := u8 (Z.lor b (Z.shiftl 1 (idx mod 8)))]> buf)).
    + reflexivity.
    + rewrite length_insert. exact Hlen.
    + rewrite length_insert. lia.
    + rewrite length_insert. lia.
Qed.

(** X5.  When [stat] fails, [init_disk] returns -1 having assigned only
    [disk_size] (the converted -1), and the run goes on as it would after a
    success: with no other failure, [main] writes the dummy block, an
    all-zero superblock, two empty bitmaps and the two inodes, reads the
    offset, then seeks to offset 0 and writes the three directory records
    over the dummy block, and returns 1. *)
Theorem run_after_stat_failure K E :
  good_constants K -> stat_size E = None -> io_succeeds E -> open_ret E <> -1 ->
  let B := HUST_BLOCKSIZE K in
  let isz := HUST_INODE_SIZE K in
  let rsz := sizeof_dir_record K in
  exists mf,
    init_disk K E initial_machine
    = Done (-1, Build_machine (with_disk_size (2 ^ 64 - 1) initial_globals)
                  initial_world) /\
    main K E 2 initial_machine = Done (1, mf) /\
    statics mf = with_disk_size (2 ^ 64 - 1) initial_globals /\
    trace (dev mf) =
    [EWrite 0 (PZeros B) B B;
     EWrite B (PSuper zero_super_block) sizeof_super_block sizeof_super_block;
     EWrite (B + sizeof_super_block) (PBuffer None) 0 0;
     EWrite (B + sizeof_super_block) (PBuffer None) 0 0;
     EWrite (B + sizeof_super_block)
       (PInode (root_dir_inode K E 0 (time E 0))) isz isz;
     EWrite (B + sizeof_super_block + isz)
       (PInode (onefile_inode K E (time E 1))) isz isz;
     ESeekCur (B + sizeof_super_block + isz + isz)
       (lseek_cur_ret E (B + sizeof_super_block + isz + isz));
     ESeek 0 (lseek_ret E 0);
     EWrite 0
       (PDirRecord {| filename := "."; dir_inode_no := HUST_ROOT_INODE_NUM K |})
       rsz rsz;
     EWrite rsz
       (PDirRecord {| filename := ".."; dir_inode_no := HUST_ROOT_INODE_NUM K |})
       rsz rsz;
     EWrite (rsz + rsz)
       (PDirRecord {| filename := "file"; dir_inode_no := 1 |})
       rsz rsz].
Proof.
  intros HK Hstat Hio Hopen. cbv zeta.
  assert (Hinit : init_disk K E initial_machine
                  = Done (-1, Build_machine
                                (with_disk_size (2 ^ 64 - 1) initial_globals)
                                initial_world)).
  { unfold init_disk, bind, get_globals, put_globals, get_file_size.
    rewrite Hstat. reflexivity. }
  cut (exists mf,
          main K E 2 initial_machine = Done (1, mf) /\
          statics mf = with_disk_size (2 ^ 64 - 1) initial_globals /\
          trace (dev mf) =
          [EWrite 0 (PZeros (HUST_BLOCKSIZE K)) (HUST_BLOCKSIZE K) (HUST_BLOCKSIZE K);
           EWrite (HUST_BLOCKSIZE K) (PSuper zero_super_block)
             sizeof_super_block sizeof_super_block;
           EWrite (HUST_BLOCKSIZE K + sizeof_super_block) (PBuffer None) 0 0;
           EWrite (HUST_BLOCKSIZE K + sizeof_super_block) (PBuffer None) 0 0;
           EWrite (HUST_BLOCKSIZE K + sizeof_super_block)
             (PInode (root_dir_inode K E 0 (time E 0)))
             (HUST_INODE_SIZE K) (HUST_INODE_SIZE K);
           EWrite (HUST_BLOCKSIZE K + sizeof_super_block + HUST_INODE_SIZE K)
             (PInode (onefile_inode K E (time E 1)))
             (HUST_INODE_SIZE K) (HUST_INODE_SIZE K);
           ESeekCur (HUST_BLOCKSIZE K + sizeof_super_block + HUST_INODE_SIZE K
                     + HUST_INODE_SIZE K)
             (lseek_cur_ret E (HUST_BLOCKSIZE K + sizeof_super_block
                               + HUST_INODE_SIZE K + HUST_INODE_SIZE K));
           ESeek 0 (lseek_ret E 0);
           EWrite 0
             (PDirRecord {| filename := ".";
                            dir_inode_no := HUST_ROOT_INODE_NUM K |})
             (sizeof_dir_record K) (sizeof_dir_record K);
           EWrite (sizeof_dir_record K)
             (PDirRecord {| filename := "..";
                            dir_inode_no := HUST_ROOT_INODE_NUM K |})
             (sizeof_dir_record K) (sizeof_dir_record K);
           EWrite (sizeof_dir_record K + sizeof_dir_record K)
             (PDirRecord {| filename := "file"; dir_inode_no := 1 |})
             (sizeof_dir_record K) (sizeof_dir_record K)]).
  { intros (mf & Hmain & Hst & Htr). exists mf. auto. }
  unfold main. change (negb (2 =? 2)) with false. cbv iota.
  destruct (Z.eqb_spec (open_ret E) (-1)) as [Hbad | _]; [contradiction |].
  unfold bind at 1. rewrite Hinit.
  unfold bind at 1. rewrite (write_dummy_run K E HK Hio).
  unfold bind at 1. rewrite (write_sb_run K E Hio).
  unfold bind at 1. rewrite (write_bmap_run K E Hio) by (cbn; lia).
  unfold bind at 1. rewrite (write_imap_run K E Hio) by (cbn; lia).
  unfold bind at 1. rewrite (write_itable_run K E HK Hio) by (cbn; lia).
  cbn [statics dev offset trace nwrites ntimes with_disk_size initial_globals
       initial_world bmap imap bmap_size imap_size super_block
       data_block_number zero_super_block app Z.add Z.mul Nat.add].
  rewrite !Z.add_0_r. unfold ret.
  eexists. split; [reflexivity |]. split; reflexivity.
Qed.

(** X5, witness: the environment in which only [stat] fails. *)
Lemma run_after_stat_failure_witness :
  exists mf,
    init_disk hust stat_fails initial_machine
    = Done (-1, Build_machine (with_disk_size (2 ^ 64 - 1) initial_globals)
                  initial_world) /\
    main hust stat_fails 2 initial_machine = Done (1, mf) /\
    statics mf = with_disk_size (2 ^ 64 - 1) initial_globals /\
    trace (dev mf) =
    [EWrite 0 (PZeros 4096) 4096 4096;
     EWrite 4096 (PSuper zero_super_block) 4096 4096;
     EWrite 8192 (PBuffer None) 0 0;
     EWrite 8192 (PBuffer None) 0 0;
     EWrite 8192 (PInode (root_dir_inode hust stat_fails 0 1700000000)) 264 264;
     EWrite (8192 + 264)
       (PInode (onefile_inode hust stat_fails 1700000001)) 264 264;
     ESeekCur (8192 + 264 + 264) (8192 + 264 + 264);
     ESeek 0 0;
     EWrite 0 (PDirRecord {| filename := "."; dir_inode_no := 0 |}) 264 264;
     EWrite 264 (PDirRecord {| filename := ".."; dir_inode_no := 0 |}) 264 264;
     EWrite (264 + 264)
       (PDirRecord {| filename := "file"; dir_inode_no := 1 |}) 264 264].
Proof.
  apply (run_after_stat_failure hust stat_fails).
  - header_constants_ok.
  - reflexivity.
  - unfold io_succeeds. cbn. split; [reflexivity |].
    intros o Ho. destruct (Z.ltb_spec o 0); lia.
  - cbn. lia.
Defined.

(** [init_disk] reads the machine it is given twice: the device goes
    through untouched, and the statics are overwritten, all of them after a
    successful [stat] and [disk_size] alone after a failed one. *)
Lemma init_disk_unfolded K E m :
  init_disk K E m
  = if u64 (get_file_size E) =? u64 (-1)
    then Done (-1, Build_machine
                     (with_disk_size (u64 (get_file_size E)) (statics m)) (dev m))
    else
      match mark_used K
              (Z.to_nat (u64 (data_block_number
                                (super_block
                                   (init_disk_geometry K (u64 (get_file_size E))))
                              + 1)))
              0
              (Build_machine (init_disk_geometry K (u64 (get_file_size E))) (dev m))
      with
      | Done (r, m') => (if r =? 0 then set_imap ;;; ret 0 else ret (-1)) m'
      | Undef => Undef
      end.
Proof.
  unfold init_disk, bind, get_globals, put_globals. cbn [statics dev].
  destruct (u64 (get_file_size E) =? u64 (-1)); reflexivity.
Qed.

(** X6.  [init_disk] makes no system call on the device: whatever it
    returns, the file offset and the trace are the ones it was given.  And
    it keeps nothing from an earlier call but the statics it assigns: run
    again on the machine it left, it returns the same value and leaves the
    same machine. *)
Theorem init_disk_leaves_device K E m r m' :
  init_disk K E m = Done (r, m') ->
  dev m' = dev m /\ init_disk K E m' = Done (r, m').
Proof.
  intros Hrun.
  assert (Hdev : dev m' = dev m).
  { revert Hrun. rewrite init_disk_unfolded.
    destruct (u64 (get_file_size E) =? u64 (-1)).
    - intros H. injection H as _ <-. reflexivity.
    - destruct (mark_used K _ 0 _) as [[r1 m1] |] eqn:Hloop; [| discriminate].
      apply mark_used_keeps in Hloop as [_ Hd]. cbn [dev] in Hd.
      destruct (r1 =? 0).
      + unfold bind.
        destruct (set_imap m1) as [[u m2] |] eqn:Himap; [| discriminate].
        apply set_imap_keeps in Himap as [_ Hd'].
        intros H. injection H as _ <-. congruence.
      + intros H. injection H as _ <-. exact Hd. }
  split; [exact Hdev |].
  rewrite init_disk_unfolded in Hrun. rewrite init_disk_unfolded.
  destruct (u64 (get_file_size E) =? u64 (-1)).
  - injection Hrun as <- <-. reflexivity.
  - rewrite Hdev. exact Hrun.
Qed.

(** X6, witness: [init_disk] on a 409,600-byte image. *)
Lemma init_disk_leaves_device_witness :
  dev (machine_after_init 409600) = dev initial_machine /\
  init_disk hust (quiet_env 409600) (machine_after_init 409600)
  = Done (0, machine_after_init 409600).
Proof.
  apply (init_disk_leaves_device hust (quiet_env 409600) initial_machine 0
           (machine_after_init 409600)).
  vm_compute. reflexivity.
Defined.

(** X7.  Once [stat] has succeeded on a device of at least one block,
    [init_disk] never returns -1: it returns 0 when the block bitmap has a
    bit for block [data_block_number] and the [int] counter can reach
    [data_block_number + 1], and otherwise the marking loop runs into
    undefined behaviour (a store past the bitmap, or the overflow of the
    counter) before [set_bmap] can report an index out of range. *)
Theorem init_disk_returns_zero_or_is_undefined K E S m :
  good_constants K -> off_t_size S -> stat_size E = Some S ->
  HUST_BLOCKSIZE K <= S ->
  let gl := init_disk_geometry K S in
  let dbn := data_block_number (super_block gl) in
  let bits := 8 * (bmap_size gl * HUST_BLOCKSIZE K) in
  ((exists m', init_disk K E m = Done (0, m'))
   <-> dbn < bits /\ dbn + 1 <= INT_MAX) /\
  (init_disk K E m = Undef <-> bits <= dbn \/ INT_MAX < dbn + 1) /\
  (forall m', init_disk K E m <> Done (-1, m')).
Proof.
  intros HK HS Hstat Hblock. cbv zeta.
  pose proof (block_size_bounds K HK) as [HB HQ].
  pose proof (geometry_nonneg K HK S HS) as (Hbs & His & Hts & Hd & Heq & HbB).
  assert (Hone : 1 <= S / HUST_BLOCKSIZE K).
  { apply Z.div_le_lower_bound; lia. }
  destruct (Z.lt_ge_cases
              (data_block_number (super_block (init_disk_geometry K S)))
              (8 * (bmap_size (init_disk_geometry K S) * HUST_BLOCKSIZE K)))
    as [Hfit | Hover].
  - destruct (init_disk_run K E HK S HS Hstat m Hone Hfit) as [Hok Hundef].
    destruct (Z.le_gt_cases
                (data_block_number (super_block (init_disk_geometry K S)) + 1)
                INT_MAX) as [Hint | Hint].
    + destruct (Hok Hint) as (bm & im & Hrun & _). rewrite Hrun.
      split; [| split].
      * split; [intros _; lia | intros _; eexists; reflexivity].
      * split; [discriminate | lia].
      * intros m'. discriminate.
    + rewrite (Hundef ltac:(lia)).
      split; [| split].
      * split; [intros [m' H]; discriminate H | lia].
      * split; [intros _; lia | reflexivity].
      * intros m'. discriminate.
  - assert (Hrun : init_disk K E m = Undef).
    { rewrite (init_disk_after_stat K E S m HS Hstat).
      rewrite (mark_used_overruns K _ 0 _
                 (replicate (Z.to_nat (bmap_size (init_disk_geometry K S)
                                       * HUST_BLOCKSIZE K)) 0)).
      - reflexivity.
      - cbn [statics]. rewrite (init_disk_geometry_eq K HK S HS). reflexivity.
      - cbn [statics]. rewrite length_replicate, u64_small by lia. lia.
      - rewrite length_replicate. lia.
      - rewrite length_replicate, u64_small by lia. lia. }
    rewrite Hrun. split; [| split].
    + split; [intros [m' H]; discriminate H | lia].
    + split; [intros _; lia | reflexivity].
    + intros m'. discriminate.
Qed.

(** X7, witness: a 409,600-byte image, on which [init_disk] returns 0. *)
Lemma init_disk_returns_zero_or_is_undefined_witness :
  ((exists m', init_disk hust (quiet_env 409600) initial_machine = Done (0, m'))
   <-> 10 < 8 * (1 * 4096) /\ 10 + 1 <= INT_MAX) /\
  (init_disk hust (quiet_env 409600) initial_machine = Undef
   <-> 8 * (1 * 4096) <= 10 \/ INT_MAX < 10 + 1) /\
  (forall m', init_disk hust (quiet_env 409600) initial_machine <> Done (-1, m')).
Proof.
  apply (init_disk_returns_zero_or_is_undefined hust (quiet_env 409600) 409600
           initial_machine).
  - header_constants_ok.
  - unfold off_t_size. lia.
  - reflexivity.
  - cbn. lia.
Defined.

(** X8.  On a device smaller than one block (an empty image; a block
    device, for which [stat] reports size 0) there is no block and the
    bitmaps are allocated with length 0; [malloc(0)] being taken to return
    a buffer, the first [set_bmap(0, 1)] passes the guard and stores past
    that buffer: [init_disk], and [main] with it, is undefined. *)
Theorem init_disk_below_one_block K E S m :
  good_constants K -> stat_size E = Some S -> 0 <= S < HUST_BLOCKSIZE K ->
  blocks_count (super_block (init_disk_geometry K S)) = 0 /\
  bmap (init_disk_geometry K S) = Some [] /\
  init_disk K E m = Undef /\
  (open_ret E <> -1 -> main K E 2 m = Undef).
Proof.
  intros HK Hstat Hsmall.
  pose proof (block_size_bounds K HK) as [HB HQ].
  assert (HB8 : 8 * HUST_BLOCKSIZE K <= INT_MAX) by (destruct HK; tauto).
  assert (HR : 0 <= RESERVE_BLOCKS K <= INT_MAX) by (destruct HK; tauto).
  unfold INT_MAX in HB8, HR.
  assert (HS : off_t_size S) by (unfold off_t_size; lia).
  assert (Hbc : S / HUST_BLOCKSIZE K = 0) by (apply Z.div_small; lia).
  assert (Hgeo : blocks_count (super_block (init_disk_geometry K S)) = 0 /\
                 bmap (init_disk_geometry K S) = Some [] /\
                 bmap_size (init_disk_geometry K S) = 0 /\
                 data_block_number (super_block (init_disk_geometry K S))
                 = RESERVE_BLOCKS K).
  { rewrite (init_disk_geometry_eq K HK S HS). cbn.
    rewrite Hbc, ceil_div_zero by lia. rewrite Z.div_0_l by lia.
    repeat split; try reflexivity. lia. }
  destruct Hgeo as (Hb0 & Hbm & Hbs & Hdbn).
  assert (Hrun : init_disk K E m = Undef).
  { rewrite (init_disk_after_stat K E S m HS Hstat).
    rewrite (mark_used_overruns K _ 0 _ []).
    - reflexivity.
    - exact Hbm.
    - cbn [statics]. rewrite Hbs. reflexivity.
    - cbn. lia.
    - rewrite Hdbn, u64_small by lia. cbn [length]. lia. }
  split; [exact Hb0 |]. split; [exact Hbm |]. split; [exact Hrun |].
  intros Hopen. rewrite (main_runs_stages K E m Hopen).
  unfold stage_codes. unfold bind at 1. rewrite Hrun. reflexivity.
Qed.

(** X8, witness: an empty image. *)
Lemma init_disk_below_one_block_witness :
  blocks_count (super_block (init_disk_geometry hust 0)) = 0 /\
  bmap (init_disk_geometry hust 0) = Some [] /\
  init_disk hust (quiet_env 0) initial_machine = Undef /\
  (open_ret (quiet_env 0) <> -1 -> main hust (quiet_env 0) 2 initial_machine = Undef).
Proof.
  apply (init_disk_below_one_block hust (quiet_env 0) 0 initial_machine).
  - header_constants_ok.
  - reflexivity.
  - cbn. lia.
Defined.

(** ** More on the geometry *)

(** X9.  The inode table is sized by a floor: its blocks hold
    [inode_table_size * (B / inode size)] inodes, never more than
    [inodes_count], short of it by less than one block's worth, and
    strictly fewer whenever [inodes_count] is not a multiple of the number
    of inodes per block. *)
Theorem inode_table_holds_fewer_inodes K S :
  good_constants K -> off_t_size S ->
  let gl := init_disk_geometry K S in
  let per_block := HUST_BLOCKSIZE K / HUST_INODE_SIZE K in
  let room := inode_table_size gl * per_block in
  1 <= per_block /\
  room <= inodes_count (super_block gl) < room + per_block /\
  (inodes_count (super_block gl) mod per_block <> 0 ->
   room < inodes_count (super_block gl)).
Proof.
  intros HK HS. cbv zeta.
  pose proof (block_size_bounds K HK) as [HB HQ].
  rewrite (init_disk_geometry_eq K HK S HS).
  cbn [inode_table_size super_block inodes_count].
  pose proof (Z.div_mod (S / HUST_BLOCKSIZE K)
                (HUST_BLOCKSIZE K / HUST_INODE_SIZE K) ltac:(lia)) as Hd.
  pose proof (Z.mod_pos_bound (S / HUST_BLOCKSIZE K)
                (HUST_BLOCKSIZE K / HUST_INODE_SIZE K) ltac:(lia)) as Hm.
  split; [exact HQ |]. split; [nia |]. intros Hne. nia.
Qed.

(** X9, witness: 100 inodes, 15 to a block, 6 blocks: room for 90. *)
Lemma inode_table_holds_fewer_inodes_witness :
  1 <= 4096 / 264 /\
  6 * (4096 / 264) <= inodes_count (super_block geometry_400K)
  < 6 * (4096 / 264) + 4096 / 264 /\
  (inodes_count (super_block geometry_400K) mod (4096 / 264) <> 0 ->
   6 * (4096 / 264) < inodes_count (super_block geometry_400K)).
Proof.
  apply (inode_table_holds_fewer_inodes hust 409600).
  - header_constants_ok.
  - unfold off_t_size. lia.
Defined.

(** X10.  With the constants of the header (4096-byte blocks, 2 reserved
    blocks, 264-byte inodes) the geometry fits the device, that is
    [blocks_count] reaches [data_block_number + 1] and [free_blocks] does
    not wrap, exactly when the device has at least 5 blocks (20,480
    bytes). *)
Theorem header_minimum_is_five_blocks S :
  off_t_size S ->
  data_block_number (super_block (init_disk_geometry hust S)) + 1
  <= blocks_count (super_block (init_disk_geometry hust S))
  <-> 5 * 4096 <= S.
Proof.
  intros HS.
  assert (HK : good_constants hust) by header_constants_ok.
  pose proof (blocks_count_bounds hust HK S HS) as Hbc.
  rewrite (init_disk_geometry_eq hust HK S HS).
  cbn [super_block data_block_number blocks_count hust HUST_BLOCKSIZE
       RESERVE_BLOCKS].
  change (HUST_BLOCKSIZE hust) with 4096 in *.
  change (4096 / HUST_INODE_SIZE hust) with 15.
  pose proof (ceil_div_spec (S / 4096) (8 * 4096) ltac:(lia) ltac:(lia)) as Hc.
  pose proof (ceil_div_le (S / 4096) (8 * 4096) ltac:(lia) ltac:(lia)) as Hl.
  pose proof (Z.div_mod (S / 4096) 15 ltac:(lia)) as Hq.
  pose proof (Z.mod_pos_bound (S / 4096) 15 ltac:(lia)) as Hr.
  pose proof (Z.div_mod S 4096 ltac:(lia)) as HqS.
  pose proof (Z.mod_pos_bound S 4096 ltac:(lia)) as HrS.
  pose proof (Z.div_mod (S / 4096) (8 * 4096) ltac:(lia)) as Hq8.
  pose proof (Z.mod_pos_bound (S / 4096) (8 * 4096) ltac:(lia)) as Hr8.
  lia.
Qed.

(** X10, witness: an image of exactly 20,480 bytes. *)
Lemma header_minimum_is_five_blocks_witness :
  data_block_number (super_block (init_disk_geometry hust 20480)) + 1
  <= blocks_count (super_block (init_disk_geometry hust 20480))
  <-> 5 * 4096 <= 20480.
Proof.
  apply (header_minimum_is_five_blocks 20480).
  unfold off_t_size. lia.
Defined.

Lemma count_below_suffix d n :
  -1 <= d ->
  count_below (fun i => negb (i <=? d)) n = Z.max 0 (Z.of_nat n - (d + 1)).
Proof.
  intros Hd. induction n as [| n IH]; [cbn; lia |].
  cbn [count_below]. rewrite IH.
  destruct (Z.leb_spec (Z.of_nat n) d); cbn [negb]; lia.
Qed.

(** X11.  The superblock and the block bitmap agree: when [init_disk]
    returns 0 on a device of at least the minimum size, [free_blocks] is
    the number of clear bits among the first [blocks_count] bits of the
    block bitmap. *)
Theorem free_blocks_counts_clear_bits K E S m m' :
  good_constants K -> off_t_size S -> stat_size E = Some S ->
  data_block_number (super_block (init_disk_geometry K S)) + 1
  <= blocks_count (super_block (init_disk_geometry K S)) ->
  init_disk K E m = Done (0, m') ->
  exists bm,
    bmap (statics m') = Some bm /\
    count_below (fun i => negb (get_bit bm i))
      (Z.to_nat (blocks_count (super_block (statics m'))))
    = free_blocks (super_block (statics m')).
Proof.
  intros HK HS Hstat Hmin Hrun.
  pose proof (block_size_bounds K HK) as [HB HQ].
  pose proof (blocks_count_bounds K HK S HS) as Hbc.
  pose proof (geometry_nonneg K HK S HS) as (Hbs & His & Hts & Hd & Heq & HbB).
  destruct (minimum_size_facts K S HK HS Hmin) as (Hone & Hfit & _).
  destruct (init_disk_run K E HK S HS Hstat m Hone Hfit) as [Hok Hundef].
  destruct (Z.le_gt_cases
              (data_block_number (super_block (init_disk_geometry K S)) + 1)
              INT_MAX) as [Hint | Hint];
    [| rewrite (Hundef ltac:(lia)) in Hrun; discriminate Hrun].
  destruct (Hok Hint) as (bm & im & Hrun' & Hlbm & Hlim & Hbm & Him).
  rewrite Hrun' in Hrun. injection Hrun as <-.
  exists bm. cbn [statics with_imap with_bmap bmap super_block].
  split; [reflexivity |].
  assert (Hb : blocks_count (super_block (init_disk_geometry K S))
               = S / HUST_BLOCKSIZE K)
    by (rewrite (init_disk_geometry_eq K HK S HS); reflexivity).
  assert (Hfree : free_blocks (super_block (init_disk_geometry K S))
                  = blocks_count (super_block (init_disk_geometry K S))
                    - data_block_number (super_block (init_disk_geometry K S)) - 1).
  { rewrite (init_disk_geometry_eq K HK S HS).
    rewrite (init_disk_geometry_eq K HK S HS) in Hmin, Hd. cbn in Hmin, Hd |- *.
    apply u64_small. lia. }
  rewrite Hfree.
  rewrite (count_below_ext _
             (fun i => negb (i <=? data_block_number
                                     (super_block (init_disk_geometry K S)))))
    by (intros i Hi; rewrite Hbm by lia; reflexivity).
  rewrite count_below_suffix by lia. lia.
Qed.

(** X11, witness: 89 clear bits among the first 100 on a 409,600-byte
    image. *)
Lemma free_blocks_counts_clear_bits_witness :
  exists bm,
    bmap (statics (machine_after_init 409600)) = Some bm /\
    count_below (fun i => negb (get_bit bm i))
      (Z.to_nat (blocks_count (super_block (statics (machine_after_init 409600)))))
    = free_blocks (super_block (statics (machine_after_init 409600))).
Proof.
  apply (free_blocks_counts_clear_bits hust (quiet_env 409600) 409600
           initial_machine (machine_after_init 409600)).
  - header_constants_ok.
  - unfold off_t_size. lia.
  - reflexivity.
  - vm_compute. discriminate.
  - vm_compute. reflexivity.
Defined.

(** ** More on a run in which nothing fails *)

(** X12.  When the inode table has no block (fewer blocks than inodes fit
    in one), [inode_table_block] is [data_block_number]: the root inode is
    written at the start of the root directory's block, and the ["."]
    record is later written at that same offset, over it. *)
Theorem inodes_overwritten_without_table K E S :
  good_constants K ->
  HUST_BLOCKSIZE K = 4096 -> RESERVE_BLOCKS K = 2 ->
  off_t_size S -> all_succeed E S ->
  let gl := init_disk_geometry K S in
  let sb := super_block gl in
  let dbn := data_block_number sb in
  let B := HUST_BLOCKSIZE K in
  dbn + 1 <= blocks_count sb ->
  dbn + 1 <= INT_MAX ->
  inode_table_size gl = 0 ->
  exists mf,
    main K E 2 initial_machine = Done (1, mf) /\
    inode_table_block sb = dbn /\
    trace (dev mf) !! 4%nat
    = Some (EWrite (dbn * B) (PInode (root_dir_inode K E dbn (time E 0)))
              (HUST_INODE_SIZE K) (HUST_INODE_SIZE K)) /\
    trace (dev mf) !! 8%nat
    = Some (EWrite (dbn * B)
              (PDirRecord {| filename := ".";
                             dir_inode_no := HUST_ROOT_INODE_NUM K |})
              (sizeof_dir_record K) (sizeof_dir_record K)) /\
    0 < HUST_INODE_SIZE K /\ 0 < sizeof_dir_record K.
Proof.
  intros HK HB HR HS Hall. cbv zeta. intros Hmin Hint Hempty.
  destruct (successful_run K E S HK HS Hall Hmin Hint)
    as (bm & im & _ & _ & _ & _ & _ & Hmain).
  cbv zeta in Hmain.
  pose proof (record_sizes K HK) as [Hisz Hrsz].
  assert (Htb : inode_table_block (super_block (init_disk_geometry K S))
                = 2 + bmap_size (init_disk_geometry K S)
                  + imap_size (init_disk_geometry K S)).
  { rewrite (init_disk_geometry_eq K HK S HS). cbn. rewrite HR. reflexivity. }
  assert (Hdb : data_block_number (super_block (init_disk_geometry K S))
                = 2 + bmap_size (init_disk_geometry K S)
                  + imap_size (init_disk_geometry K S)
                  + inode_table_size (init_disk_geometry K S)).
  { rewrite (init_disk_geometry_eq K HK S HS). cbn. rewrite HR. reflexivity. }
  eexists. split; [exact Hmain |].
  cbn [dev trace]. split; [lia |].
  split; [| split; [reflexivity | lia]].
  cbn [lookup list_lookup]. do 2 f_equal.
  rewrite Hdb, Hempty. unfold sizeof_super_block. rewrite HB. lia.
Qed.

(** X12, witness: an image of 20,480 bytes: 5 blocks, none for the
    table. *)
Lemma inodes_overwritten_without_table_witness :
  exists mf,
    main hust (quiet_env 20480) 2 initial_machine = Done (1, mf) /\
    inode_table_block (super_block (init_disk_geometry hust 20480)) = 4 /\
    trace (dev mf) !! 4%nat
    = Some (EWrite (4 * 4096)
              (PInode (root_dir_inode hust (quiet_env 20480) 4 1700000000))
              264 264) /\
    trace (dev mf) !! 8%nat
    = Some (EWrite (4 * 4096)
              (PDirRecord {| filename := "."; dir_inode_no := 0 |}) 264 264) /\
    0 < 264 /\ 0 < 264.
Proof.
  apply (inodes_overwritten_without_table hust (quiet_env 20480) 20480).
  - header_constants_ok.
  - reflexivity.
  - reflexivity.
  - unfold off_t_size. lia.
  - quiet_env_ok.
  - vm_compute. discriminate.
  - vm_compute. discriminate.
  - vm_compute. reflexivity.
Defined.

(** X13.  In a run where nothing fails, with 4096-byte blocks and the two
    reserved leading blocks, on a device of at least the minimum size, no
    write stores a byte outside the device, provided two inode records and
    three directory records each fit one block. *)
Theorem writes_stay_inside_device K E S :
  good_constants K ->
  HUST_BLOCKSIZE K = 4096 -> RESERVE_BLOCKS K = 2 ->
  2 * HUST_INODE_SIZE K <= HUST_BLOCKSIZE K ->
  3 * sizeof_dir_record K <= HUST_BLOCKSIZE K ->
  off_t_size S -> all_succeed E S ->
  let sb := super_block (init_disk_geometry K S) in
  data_block_number sb + 1 <= blocks_count sb ->
  data_block_number sb + 1 <= INT_MAX ->
  exists mf,
    main K E 2 initial_machine = Done (1, mf) /\
    forall e lo hi,
      e ∈ trace (dev mf) -> bytes_stored e = Some (lo, hi) ->
      0 <= lo /\ hi <= S.
Proof.
  intros HK HB HR H2 H3 HS Hall. cbv zeta. intros Hmin Hint.
  destruct (successful_run K E S HK HS Hall Hmin Hint)
    as (bm & im & _ & _ & _ & _ & _ & Hmain).
  cbv zeta in Hmain.
  pose proof (geometry_nonneg K HK S HS) as (Hbs & His & Hts & Hd & Heq & HbB).
  pose proof (record_sizes K HK) as [Hisz Hrsz].
  assert (Hdb : data_block_number (super_block (init_disk_geometry K S))
                = 2 + bmap_size (init_disk_geometry K S)
                  + imap_size (init_disk_geometry K S)
                  + inode_table_size (init_disk_geometry K S)).
  { rewrite (init_disk_geometry_eq K HK S HS). cbn. rewrite HR. reflexivity. }
  assert (Hb : blocks_count (super_block (init_disk_geometry K S)) = S / 4096).
  { rewrite (init_disk_geometry_eq K HK S HS). cbn. rewrite HB. reflexivity. }
  pose proof (Z.mul_div_le S 4096 ltac:(lia)) as Hle.
  rewrite Hb in Hmin.
  remember (bmap_size (init_disk_geometry K S)) as nb eqn:Hnb.
  remember (imap_size (init_disk_geometry K S)) as ni eqn:Hni.
  remember (inode_table_size (init_disk_geometry K S)) as nt eqn:Hnt.
  remember (data_block_number (super_block (init_disk_geometry K S))) as nd eqn:Hnd.
  eexists. split; [exact Hmain |].
  cbn [dev trace].
  intros e lo hi Hin Hst.
  unfold sizeof_super_block in Hin.
  repeat (apply elem_of_cons in Hin as [-> | Hin]);
    [.. | apply elem_of_nil in Hin; contradiction];
    cbn [bytes_stored] in Hst;
    try discriminate Hst;
    match type of Hst with
    | (if ?c then _ else _) = _ => destruct c; [| discriminate Hst]
    end;
    injection Hst as <- <-;
    rewrite ?HB in *; lia.
Qed.

(** X13, witness: a 409,600-byte image, the constants of the header. *)
Lemma writes_stay_inside_device_witness :
  exists mf,
    main hust (quiet_env 409600) 2 initial_machine = Done (1, mf) /\
    forall e lo hi,
      e ∈ trace (dev mf) -> bytes_stored e = Some (lo, hi) ->
      0 <= lo /\ hi <= 409600.
Proof.
  apply (writes_stay_inside_device hust (quiet_env 409600) 409600).
  - header_constants_ok.
  - reflexivity.
  - reflexivity.
  - vm_compute. discriminate.
  - vm_compute. discriminate.
  - unfold off_t_size. lia.
  - quiet_env_ok.
  - vm_compute. discriminate.
  - vm_compute. discriminate.
Defined.

(** ** [write_itable] and the other writers when system calls fail *)

(** [write_itable] in any environment: it does not run into undefined
    behaviour, its first call on the device is the write of the root inode,
    and its return value depends on four of the (up to) seven calls. *)
Lemma write_itable_any_env K E m :
  good_constants K ->
  exists c m' rest,
    write_itable K E m = Done (c, m') /\
    statics m' = statics m /\
    (c = 0 \/ c = -1) /\
    (c = 0 <->
     u64 (write_ret E (nwrites (dev m)) (HUST_INODE_SIZE K)) = HUST_INODE_SIZE K /\
     u64 (write_ret E (Datatypes.S (nwrites (dev m))) (HUST_INODE_SIZE K))
     = HUST_INODE_SIZE K /\
     lseek_ret E (i64 (u64 (data_block_number (super_block (statics m))
                            * HUST_BLOCKSIZE K))) <> -1 /\
     u64 (write_ret E (4 + nwrites (dev m)) (sizeof_dir_record K))
     = sizeof_dir_record K) /\
    trace (dev m')
    = trace (dev m) ++
      EWrite (offset (dev m))
        (PInode (root_dir_inode K E (data_block_number (super_block (statics m)))
                   (time E (ntimes (dev m)))))
        (HUST_INODE_SIZE K)
        (write_ret E (nwrites (dev m)) (HUST_INODE_SIZE K)) :: rest.
Proof.
  intros HK.
  unfold write_itable, get_globals, sys_time.
  unfold bind at 1. unfold bind at 1. unfold bind at 1.
  unfold sys_write at 1. cbn [dev statics nwrites ntimes offset trace].
  destruct (Z.eqb_spec (u64 (write_ret E (nwrites (dev m)) (HUST_INODE_SIZE K)))
              (HUST_INODE_SIZE K)) as [H1 | H1]; cbn [negb].
  2: { eexists. eexists. exists []. split; [reflexivity |]. split; [reflexivity |].
       split; [right; reflexivity |]. split; [| reflexivity].
       split; [discriminate | tauto]. }
  unfold bind at 1. unfold bind at 1.
  unfold sys_write at 1. cbn [dev statics nwrites ntimes offset trace].
  destruct (Z.eqb_spec
              (u64 (write_ret E (Datatypes.S (nwrites (dev m))) (HUST_INODE_SIZE K)))
              (HUST_INODE_SIZE K)) as [H2 | H2]; cbn [negb].
  2: { eexists. eexists. eexists. split; [reflexivity |]. split; [reflexivity |].
       split; [right; reflexivity |].
       split; [split; [discriminate | tauto] |].
       cbn [dev trace]. rewrite <- !app_assoc. cbn [app]. reflexivity. }
  unfold bind at 1. rewrite (memcpy_name_fits K HK) by (cbn; lia).
  unfold bind at 1. rewrite (memcpy_name_fits K HK) by (cbn; lia).
  unfold bind at 1. rewrite (memcpy_name_fits K HK) by (cbn; lia).
  unfold bind at 1. unfold sys_lseek_cur.
  cbn [dev statics nwrites ntimes offset trace].
  unfold bind at 1. unfold sys_lseek. cbn [dev statics nwrites ntimes offset trace].
  destruct (Z.eqb_spec
              (lseek_ret E
                 (i64 (u64 (data_block_number (super_block (statics m))
                            * HUST_BLOCKSIZE K)))) (-1)) as [H3 | H3].
  { eexists. eexists. eexists. split; [reflexivity |]. split; [reflexivity |].
    split; [right; reflexivity |].
    split; [split; [discriminate | tauto] |].
    cbn [dev trace]. rewrite <- !app_assoc. cbn [app]. reflexivity. }
  unfold bind at 1. unfold sys_write at 1.
  cbn [dev statics nwrites ntimes offset trace].
  unfold bind at 1. unfold sys_write at 1.
  cbn [dev statics nwrites ntimes offset trace].
  unfold bind at 1. unfold sys_write at 1.
  cbn [dev statics nwrites ntimes offset trace].
  change (4 + nwrites (dev m))%nat
    with (Datatypes.S (Datatypes.S (Datatypes.S (Datatypes.S (nwrites (dev m)))))).
  destruct (Z.eqb_spec
              (u64 (write_ret E
                      (Datatypes.S (Datatypes.S (Datatypes.S
                         (Datatypes.S (nwrites (dev m))))))
                      (sizeof_dir_record K)))
              (sizeof_dir_record K)) as [H5 | H5]; cbn [negb].
  - eexists. eexists. eexists. split; [reflexivity |]. split; [reflexivity |].
    split; [left; reflexivity |].
    split; [split; [intros _; auto | reflexivity] |].
    cbn [dev trace]. rewrite <- !app_assoc. cbn [app]. reflexivity.
  - eexists. eexists. eexists. split; [reflexivity |]. split; [reflexivity |].
    split; [right; reflexivity |].
    split; [split; [discriminate | tauto] |].
    cbn [dev trace]. rewrite <- !app_assoc. cbn [app]. reflexivity.
Qed.

(** X14.  [write_itable] returns 0 or -1 and leaves the statics alone.  It
    returns 0 exactly when both inode writes were complete, the seek did
    not fail and the third directory-record write was complete: what the
    writes of the first two directory records returned is not looked at. *)
Theorem write_itable_returns_zero_iff K E m :
  good_constants K ->
  let n := nwrites (dev m) in
  let isz := HUST_INODE_SIZE K in
  let rsz := sizeof_dir_record K in
  let target :=
    i64 (u64 (data_block_number (super_block (statics m)) * HUST_BLOCKSIZE K)) in
  exists c m',
    write_itable K E m = Done (c, m') /\
    statics m' = statics m /\
    (c = 0 \/ c = -1) /\
    (c = 0 <->
     u64 (write_ret E n isz) = isz /\
     u64 (write_ret E (Datatypes.S n) isz) = isz /\
     lseek_ret E target <> -1 /\
     u64 (write_ret E (4 + n) rsz) = rsz).
Proof.
  intros HK. cbv zeta.
  destruct (write_itable_any_env K E m HK) as (c & m' & rest & Hrun & Hst & Hc & Hiff & _).
  exists c, m'. auto.
Qed.

(** X14, witness: the third [write] of [write_itable], of the first
    directory record, stores only 10 bytes; 0 is returned all the same. *)
Lemma write_itable_returns_zero_iff_witness :
  exists c m',
    write_itable hust (short_write 409600 2 10) (machine_after_init 409600)
    = Done (c, m') /\
    statics m' = statics (machine_after_init 409600) /\
    (c = 0 \/ c = -1) /\
    (c = 0 <->
     u64 (write_ret (short_write 409600 2 10) 0 264) = 264 /\
     u64 (write_ret (short_write 409600 2 10) 1 264) = 264 /\
     lseek_ret (short_write 409600 2 10) (i64 (u64 (10 * 4096))) <> -1 /\
     u64 (write_ret (short_write 409600 2 10) 4 264) = 264).
Proof.
  apply (write_itable_returns_zero_iff hust (short_write 409600 2 10)
           (machine_after_init 409600)).
  header_constants_ok.
Defined.

(** X15.  When the write of the root inode is not complete, [write_itable]
    returns -1 at once: that write is the only call it makes on the
    device. *)
Theorem write_itable_stops_at_short_inode_write K E m :
  u64 (write_ret E (nwrites (dev m)) (HUST_INODE_SIZE K)) <> HUST_INODE_SIZE K ->
  exists m',
    write_itable K E m = Done (-1, m') /\
    statics m' = statics m /\
    trace (dev m')
    = trace (dev m) ++
      [EWrite (offset (dev m))
         (PInode (root_dir_inode K E (data_block_number (super_block (statics m)))
                    (time E (ntimes (dev m)))))
         (HUST_INODE_SIZE K)
         (write_ret E (nwrites (dev m)) (HUST_INODE_SIZE K))].
Proof.
  intros Hshort.
  unfold write_itable, get_globals, sys_time.
  unfold bind at 1. unfold bind at 1. unfold bind at 1.
  unfold sys_write at 1. cbn [dev statics nwrites ntimes offset trace].
  destruct (Z.eqb_spec (u64 (write_ret E (nwrites (dev m)) (HUST_INODE_SIZE K)))
              (HUST_INODE_SIZE K)) as [H1 | H1]; [contradiction |].
  cbn [negb]. eexists. split; [reflexivity |]. split; reflexivity.
Qed.

(** X15, witness: the root inode write stores 100 of its 264 bytes. *)
Lemma write_itable_stops_at_short_inode_write_witness :
  exists m',
    write_itable hust (short_write 409600 0 100) (machine_after_init 409600)
    = Done (-1, m') /\
    statics m' = statics (machine_after_init 409600) /\
    trace (dev m')
    = trace (dev (machine_after_init 409600)) ++
      [EWrite 0
         (PInode (root_dir_inode hust (short_write 409600 0 100) 10 1700000000))
         264 100].
Proof.
  apply (write_itable_stops_at_short_inode_write hust (short_write 409600 0 100)
           (machine_after_init 409600)).
  vm_compute. discriminate.
Defined.



Lemma sys_write_any_env E p count m :
  sys_write E p count m
  = Done (write_ret E (nwrites (dev m)) count,
          Build_machine (statics m) (after_write E p count (dev m))).
Proof. reflexivity. Qed.

Lemma ssize_t_equals_count r count :
  - 2 ^ 63 <= r < 2 ^ 63 -> 0 <= count < 2 ^ 63 -> u64 r = count <-> r = count.
Proof.
  intros Hr Hc. unfold u64.
  destruct (Z.neg_nonneg_cases r) as [Hneg | Hpos].
  - assert (Hm : r mod 2 ^ 64 = r + 2 ^ 64).
    { symmetry. apply Z.mod_unique with (q := -1); lia. }
    rewrite Hm. lia.
  - rewrite Z.mod_small by lia. tauto.
Qed.

Section SimpleWriters.

Variable K : constants.
Variable E : env.

Lemma write_dummy_any_env m :
  exists c,
    write_dummy K E m
    = Done (c, Build_machine (statics m)
                 (after_write E (PZeros (HUST_BLOCKSIZE K)) (HUST_BLOCKSIZE K) (dev m))) /\
    (c = 0 <-> write_ret E (nwrites (dev m)) (HUST_BLOCKSIZE K) = HUST_BLOCKSIZE K) /\
    (c = 0 \/ c = -1).
Proof.
  unfold write_dummy, bind. rewrite sys_write_any_env.
  destruct (Z.eqb_spec (write_ret E (nwrites (dev m)) (HUST_BLOCKSIZE K))
              (HUST_BLOCKSIZE K)) as [Heq | Hne].
  - exists 0. split; [reflexivity |]. split; [tauto | left; reflexivity].
  - exists (-1). split; [reflexivity |].
    split; [split; [discriminate | contradiction] | right; reflexivity].
Qed.

Lemma write_sb_any_env m :
  exists c,
    write_sb K E m
    = Done (c, Build_machine (statics m)
                 (after_write E (PSuper (super_block (statics m)))
                    sizeof_super_block (dev m))) /\
    (c = 0 <-> write_ret E (nwrites (dev m)) sizeof_super_block = HUST_BLOCKSIZE K) /\
    (c = 0 \/ c = -1).
Proof.
  unfold write_sb, bind, get_globals. rewrite sys_write_any_env.
  destruct (Z.eqb_spec (write_ret E (nwrites (dev m)) sizeof_super_block)
              (HUST_BLOCKSIZE K)) as [Heq | Hne].
  - exists 0. split; [reflexivity |]. split; [tauto | left; reflexivity].
  - exists (-1). split; [reflexivity |].
    split; [split; [discriminate | contradiction] | right; reflexivity].
Qed.

Lemma write_bmap_any_env m :
  exists c,
    write_bmap K E m
    = Done (c, Build_machine (statics m)
                 (after_write E (PBuffer (bmap (statics m)))
                    (u64 (bmap_size (statics m) * HUST_BLOCKSIZE K)) (dev m))) /\
    (c = 0 <->
     u64 (write_ret E (nwrites (dev m))
            (u64 (bmap_size (statics m) * HUST_BLOCKSIZE K)))
     = u64 (bmap_size (statics m) * HUST_BLOCKSIZE K)) /\
    (c = 0 \/ c = -1).
Proof.
  unfold write_bmap, bind, get_globals. rewrite sys_write_any_env.
  destruct (Z.eqb_spec
              (u64 (write_ret E (nwrites (dev m))
                      (u64 (bmap_size (statics m) * HUST_BLOCKSIZE K))))
              (u64 (bmap_size (statics m) * HUST_BLOCKSIZE K))) as [Heq | Hne].
  - exists 0. split; [reflexivity |]. split; [tauto | left; reflexivity].
  - exists (-1). split; [reflexivity |].
    split; [split; [discriminate | contradiction] | right; reflexivity].
Qed.

Lemma write_imap_any_env m :
  exists c,
    write_imap K E m
    = Done (c, Build_machine (statics m)
                 (after_write E (PBuffer (imap (statics m)))
                    (u64 (imap_size (statics m) * HUST_BLOCKSIZE K)) (dev m))) /\
    (c = 0 <->
     u64 (write_ret E (nwrites (dev m))
            (u64 (imap_size (statics m) * HUST_BLOCKSIZE K)))
     = u64 (imap_size (statics m) * HUST_BLOCKSIZE K)) /\
    (c = 0 \/ c = -1).
Proof.
  unfold write_imap, bind, get_globals. rewrite sys_write_any_env.
  destruct (Z.eqb_spec
              (u64 (write_ret E (nwrites (dev m))
                      (u64 (imap_size (statics m) * HUST_BLOCKSIZE K))))
              (u64 (imap_size (statics m) * HUST_BLOCKSIZE K))) as [Heq | Hne].
  - exists 0. split; [reflexivity |]. split; [tauto | left; reflexivity].
  - exists (-1). split; [reflexivity |].
    split; [split; [discriminate | contradiction] | right; reflexivity].
Qed.

End SimpleWriters.

(** X17.  Each of [write_dummy], [write_sb], [write_bmap] and [write_imap]
    makes exactly one [write] call at the current offset, with no retry
    after a short write, leaves the statics alone and returns 0 when the
    call returned the whole count and -1 otherwise; for [write_sb] the
    count handed to [write] is the size of the structure while the value
    compared with is [HUST_BLOCKSIZE]. *)
Theorem simple_writers_write_once K E m :
  let n := nwrites (dev m) in
  let bytes_b := u64 (bmap_size (statics m) * HUST_BLOCKSIZE K) in
  let bytes_i := u64 (imap_size (statics m) * HUST_BLOCKSIZE K) in
  bytes_b < 2 ^ 63 -> ssize_t (write_ret E n bytes_b) ->
  bytes_i < 2 ^ 63 -> ssize_t (write_ret E n bytes_i) ->
  writes_once E (write_dummy K E) m
    (PZeros (HUST_BLOCKSIZE K)) (HUST_BLOCKSIZE K) (HUST_BLOCKSIZE K) /\
  writes_once E (write_sb K E) m
    (PSuper (super_block (statics m))) sizeof_super_block (HUST_BLOCKSIZE K) /\
  writes_once E (write_bmap K E) m (PBuffer (bmap (statics m))) bytes_b bytes_b /\
  writes_once E (write_imap K E) m (PBuffer (imap (statics m))) bytes_i bytes_i.
Proof.
  cbv zeta. intros Hb Hrb Hi Hri. unfold writes_once, ssize_t in *. cbv zeta.
  assert (Hpos : forall x, 0 <= u64 x)
    by (intros x; unfold u64; apply Z.mod_pos_bound; lia).
  split; [| split; [| split]].
  - destruct (write_dummy_any_env K E m) as (c & Hrun & Hiff & Hc).
    eexists. eexists. split; [exact Hrun |]. repeat split; auto; apply Hiff.
  - destruct (write_sb_any_env K E m) as (c & Hrun & Hiff & Hc).
    eexists. eexists. split; [exact Hrun |]. repeat split; auto; apply Hiff.
  - destruct (write_bmap_any_env K E m) as (c & Hrun & Hiff & Hc).
    eexists. eexists. split; [exact Hrun |].
    rewrite ssize_t_equals_count in Hiff
      by (assumption || (split; [apply Hpos | assumption])).
    repeat split; auto; apply Hiff.
  - destruct (write_imap_any_env K E m) as (c & Hrun & Hiff & Hc).
    eexists. eexists. split; [exact Hrun |].
    rewrite ssize_t_equals_count in Hiff
      by (assumption || (split; [apply Hpos | assumption])).
    repeat split; auto; apply Hiff.
Qed.

(** X17, witness: the four writers after [init_disk] on a 409,600-byte
    image, the first [write] storing only 100 bytes. *)
Lemma simple_writers_write_once_witness :
  writes_once (short_write 409600 0 100)
    (write_dummy hust (short_write 409600 0 100))
    (machine_after_init 409600) (PZeros 4096) 4096 4096 /\
  writes_once (short_write 409600 0 100)
    (write_sb hust (short_write 409600 0 100))
    (machine_after_init 409600)
    (PSuper (super_block (statics (machine_after_init 409600)))) 4096 4096 /\
  writes_once (short_write 409600 0 100)
    (write_bmap hust (short_write 409600 0 100))
    (machine_after_init 409600)
    (PBuffer (bmap (statics (machine_after_init 409600)))) 4096 4096 /\
  writes_once (short_write 409600 0 100)
    (write_imap hust (short_write 409600 0 100))
    (machine_after_init 409600)
    (PBuffer (imap (statics (machine_after_init 409600)))) 4096 4096.
Proof.
  apply (simple_writers_write_once hust (short_write 409600 0 100)
           (machine_after_init 409600)).
  - vm_compute. reflexivity.
  - vm_compute. split; discriminate || reflexivity.
  - vm_compute. reflexivity.
  - vm_compute. split; discriminate || reflexivity.
Defined.

(** ** [main] in any environment *)

(** X18.  Whatever [init_disk] returned and whatever the [write] calls
    return, [main] goes on to call every writer: it makes at least five
    [write] calls after [init_disk] (dummy block, superblock, the two
    bitmaps, root inode), each at the offset where the one before left the
    file, hands them what [init_disk] left in the statics, and returns
    1. *)
Theorem main_calls_every_writer K E m c m1 :
  good_constants K -> open_ret E <> -1 ->
  init_disk K E m = Done (c, m1) ->
  exists mf rest r0 r1 r2 r3 r4,
    main K E 2 m = Done (1, mf) /\
    statics mf = statics m1 /\
    trace (dev mf) =
    trace (dev m1) ++
    [EWrite (offset (dev m1))
       (PZeros (HUST_BLOCKSIZE K)) (HUST_BLOCKSIZE K) r0;
     EWrite (advance (offset (dev m1)) r0)
       (PSuper (super_block (statics m1))) sizeof_super_block r1;
     EWrite (advance (advance (offset (dev m1)) r0) r1)
       (PBuffer (bmap (statics m1)))
       (u64 (bmap_size (statics m1) * HUST_BLOCKSIZE K)) r2;
     EWrite (advance (advance (advance (offset (dev m1)) r0) r1) r2)
       (PBuffer (imap (statics m1)))
       (u64 (imap_size (statics m1) * HUST_BLOCKSIZE K)) r3;
     EWrite (advance (advance (advance (advance (offset (dev m1)) r0) r1) r2) r3)
       (PInode (root_dir_inode K E (data_block_number (super_block (statics m1)))
                  (time E (ntimes (dev m1)))))
       (HUST_INODE_SIZE K) r4]
    ++ rest.
Proof.
  intros HK Hopen Hinit.
  unfold main. change (negb (2 =? 2)) with false. cbv iota.
  destruct (Z.eqb_spec (open_ret E) (-1)) as [Hbad | _]; [contradiction |].
  unfold bind at 1. rewrite Hinit.
  destruct (write_dummy_any_env K E m1) as (c2 & Hr2 & _).
  unfold bind at 1. rewrite Hr2.
  unfold bind at 1.
  match goal with |- context [write_sb K E ?x] =>
    destruct (write_sb_any_env K E x) as (c3 & Hr3 & _) end.
  rewrite Hr3.
  unfold bind at 1.
  match goal with |- context [write_bmap K E ?x] =>
    destruct (write_bmap_any_env K E x) as (c4 & Hr4 & _) end.
  rewrite Hr4.
  unfold bind at 1.
  match goal with |- context [write_imap K E ?x] =>
    destruct (write_imap_any_env K E x) as (c5 & Hr5 & _) end.
  rewrite Hr5.
  unfold bind at 1.
  match goal with |- context [write_itable K E ?x] =>
    destruct (write_itable_any_env K E x HK)
      as (c6 & m6 & rest & Hr6 & Hst & _ & _ & Htr) end.
  rewrite Hr6.
  exists m6, rest. do 5 eexists. split; [reflexivity |].
  split; [exact Hst |].
  rewrite Htr.
  cbn [statics dev after_write trace nwrites ntimes offset].
  rewrite <- !app_assoc. cbn [app]. reflexivity.
Qed.

(** X18, witness: the run in which the first [write] fails. *)
Lemma main_calls_every_writer_witness :
  exists mf rest r0 r1 r2 r3 r4,
    main hust (first_write_fails 409600) 2 initial_machine = Done (1, mf) /\
    statics mf = statics (machine_after_init 409600) /\
    trace (dev mf) =
    trace (dev (machine_after_init 409600)) ++
    [EWrite (offset (dev (machine_after_init 409600)))
       (PZeros (HUST_BLOCKSIZE hust)) (HUST_BLOCKSIZE hust) r0;
     EWrite (advance (offset (dev (machine_after_init 409600))) r0)
       (PSuper (super_block (statics (machine_after_init 409600))))
       sizeof_super_block r1;
     EWrite (advance (advance (offset (dev (machine_after_init 409600))) r0) r1)
       (PBuffer (bmap (statics (machine_after_init 409600))))
       (u64 (bmap_size (statics (machine_after_init 409600)) * HUST_BLOCKSIZE hust))
       r2;
     EWrite (advance (advance (advance
                (offset (dev (machine_after_init 409600))) r0) r1) r2)
       (PBuffer (imap (statics (machine_after_init 409600))))
       (u64 (imap_size (statics (machine_after_init 409600)) * HUST_BLOCKSIZE hust))
       r3;
     EWrite (advance (advance (advance (advance
                (offset (dev (machine_after_init 409600))) r0) r1) r2) r3)
       (PInode (root_dir_inode hust (first_write_fails 409600)
                  (data_block_number
                     (super_block (statics (machine_after_init 409600))))
                  (time (first_write_fails 409600)
                     (ntimes (dev (machine_after_init 409600))))))
       (HUST_INODE_SIZE hust) r4]
    ++ rest.
Proof.
  apply (main_calls_every_writer hust (first_write_fails 409600) initial_machine 0
           (machine_after_init 409600)).
  - header_constants_ok.
  - cbn. lia.
  - vm_compute. reflexivity.
Defined.

(** X19.  [main] never returns 0.  It returns -1, having touched neither
    the statics nor the device, exactly when it is not given one argument
    or [open] fails; in every other run that returns it returns 1. *)
Theorem main_exit_status K E argc m r m' :
  main K E argc m = Done (r, m') ->
  (r = -1 /\ m' = m /\ (argc <> 2 \/ open_ret E = -1)) \/
  (r = 1 /\ argc = 2 /\ open_ret E <> -1).
Proof.
  unfold main.
  destruct (Z.eqb_spec argc 2) as [-> | Hargc]; cbn [negb].
  - destruct (Z.eqb_spec (open_ret E) (-1)) as [Hopen | Hopen].
    + intros H. injection H as <- <-. left. auto.
    + intros H. right.
      assert (Hm : main K E 2 m = Done (r, m')).
      { unfold main. change (negb (2 =? 2)) with false. cbv iota.
        destruct (Z.eqb_spec (open_ret E) (-1)); [contradiction | exact H]. }
      rewrite (main_runs_stages K E m Hopen) in Hm.
      destruct (stage_codes K E m) as [[codes mf] |]; [| discriminate Hm].
      injection Hm as <- _. auto.
  - intros H. injection H as <- <-. left. auto.
Qed.

(** X19, witness: [main] called with two arguments. *)
Lemma main_exit_status_witness :
  (-1 = -1 /\ initial_machine = initial_machine /\
   (3 <> 2 \/ open_ret (quiet_env 409600) = -1)) \/
  (-1 = 1 /\ 3 = 2 /\ open_ret (quiet_env 409600) <> -1).
Proof.
  apply (main_exit_status hust (quiet_env 409600) 3 initial_machine (-1)
           initial_machine).
  reflexivity.
Defined.
